(** * modern-react-forms: comment board, feedback validation, search filter

    A shallow embedding of the server actions, the route handler and the
    client reducers of the repository, with the properties its
    specification states about them.

    The first part holds the definitions: JavaScript strings, JSON, the
    runtime (errors, files, the cache signal, form data), then the code of
    the repository file by file, the validation library it calls, and the
    scenarios of the specification.  The second part holds the
    properties.  An effectful function is a function from the world to an
    outcome and the world after it; the world keeps the files, and the
    effects completed so far in their order.

    Strings.  A JavaScript string is a sequence of UTF-16 code units.  The
    development models the strings over the code units U+0000..U+00FF as
    [string], one [ascii] per code unit; on that range [length],
    [toLowerCase], [includes], [JSON.stringify] and [JSON.parse] are the
    functions below.  A stored document that denotes other code units (by
    a [\uXXXX] escape above [00FF]) is reported as [Beyond], never as a
    syntax error. *)

From Stdlib Require Import Ascii NArith Lia.
From stdpp Require Import base strings list gmap pretty.

#[local] Arguments String.append : simpl nomatch.

(** ** JavaScript strings *)

Module JsString.

Definition code (c : ascii) : N := N_of_ascii c.

Definition between (lo hi : N) (c : ascii) : bool :=
  ((lo <=? code c) && (code c <=? hi))%N.

(** [String.prototype.toLowerCase] on one code unit of U+0000..U+00FF:
    A-Z, and the Latin-1 capitals U+00C0..U+00DE except the
    multiplication sign U+00D7, move up by 32. *)
Definition toLowerCase_unit (c : ascii) : ascii :=
  if between 65 90 c || between 192 214 c || between 216 222 c
  then ascii_of_N (code c + 32)
  else c.

Fixpoint toLowerCase (s : string) : string :=
  match s with
  | EmptyString => EmptyString
  | String c s' => String (toLowerCase_unit c) (toLowerCase s')
  end.

(** [s.startsWith(t)] *)
Fixpoint startsWith (s t : string) {struct t} : bool :=
  match t, s with
  | EmptyString, _ => true
  | String _ _, EmptyString => false
  | String b t', String a s' => Ascii.eqb a b && startsWith s' t'
  end.

(** [s.includes(t)]: [t] occurs in [s] at some position. *)
Fixpoint includes (s t : string) : bool :=
  startsWith s t ||
  match s with
  | EmptyString => false
  | String _ s' => includes s' t
  end.

(** The specification's wording of the same test: [t] is a substring
    of [s]. *)
Definition is_substring (t s : string) : Prop :=
  ∃ pre post, s = pre +:+ t +:+ post.

(** The specification's test of a record against a query: the record
    contains the query as a substring, both in lower case. *)
Definition contains_ci (query record : string) : Prop :=
  is_substring (toLowerCase query) (toLowerCase record).

(** If [s] starts with [p], what follows it. *)
Fixpoint strip (p s : string) {struct p} : option string :=
  match p, s with
  | EmptyString, _ => Some s
  | String _ _, EmptyString => None
  | String b p', String a s' => if Ascii.eqb a b then strip p' s' else None
  end.

Fixpoint join (sep : string) (l : list string) : string :=
  match l with
  | [] => ""
  | [x] => x
  | x :: l' => x +:+ sep +:+ join sep l'
  end.

End JsString.

(** ** JSON: the values, [JSON.stringify] and [JSON.parse] *)

Module JSON.
Import JsString.

#[warnings="-register-all"]
Inductive Json : Type :=
| JNull
| JBool (b : bool)
| JNumber (tok : string)
| JString (s : string)
| JArray (l : list Json)
| JObject (m : list (string * Json)).

(** *** Serialisation *)

Definition hex_char (n : N) : ascii :=
  if (n <? 10)%N then ascii_of_N (48 + n) else ascii_of_N (87 + n).

(** QuoteJSONString, one code unit. *)
Definition escape_unit (c : ascii) : string :=
  if Ascii.eqb c "008" then "\b"
  else if Ascii.eqb c "009" then "\t"
  else if Ascii.eqb c "010" then "\n"
  else if Ascii.eqb c "012" then "\f"
  else if Ascii.eqb c "013" then "\r"
  else if Ascii.eqb c "034" then String "\" (String "034" "")
  else if Ascii.eqb c "\" then "\\"
  else if (code c <? 32)%N then
    "\u00" +:+ String (hex_char (code c / 16)) (String (hex_char (code c mod 16)) "")
  else String c "".

Fixpoint escape (s : string) : string :=
  match s with
  | EmptyString => ""
  | String c s' => escape_unit c +:+ escape s'
  end.

Definition quote (s : string) : string :=
  String "034" (escape s +:+ String "034" "").

(** [JSON.stringify] on a value that came out of [JSON.parse] or is a
    string.  A number is carried as the token it was read from and an
    object as its members in the order read; JavaScript prints the
    number's shortest form and an object's integer-like keys first.  No
    statement below depends on the text written for those two. *)
Fixpoint stringify (v : Json) : string :=
  match v with
  | JNull => "null"
  | JBool true => "true"
  | JBool false => "false"
  | JNumber tok => tok
  | JString s => quote s
  | JArray l => "[" +:+ join "," (map stringify l) +:+ "]"
  | JObject m =>
      "{" +:+ join "," (map (fun kv => quote (fst kv) +:+ ":" +:+ stringify (snd kv)) m) +:+ "}"
  end.

(** *** Lexical analysis *)

Definition is_ws (c : ascii) : bool :=
  Ascii.eqb c " " || Ascii.eqb c "009" || Ascii.eqb c "010" || Ascii.eqb c "013".

Fixpoint skip_ws (s : string) : string :=
  match s with
  | String c s' => if is_ws c then skip_ws s' else s
  | EmptyString => s
  end.

Definition is_digit (c : ascii) : bool := between 48 57 c.

Definition hex_digit (c : ascii) : option N :=
  if between 48 57 c then Some (code c - 48)%N
  else if between 97 102 c then Some (code c - 87)%N
  else if between 65 70 c then Some (code c - 55)%N
  else None.

(** The character an escape letter stands for. *)
Definition simple_escape (e : ascii) : option ascii :=
  if Ascii.eqb e "034" then Some "034"%char
  else if Ascii.eqb e "\" then Some "\"%char
  else if Ascii.eqb e "/" then Some "/"%char
  else if Ascii.eqb e "b" then Some "008"%char
  else if Ascii.eqb e "f" then Some "012"%char
  else if Ascii.eqb e "n" then Some "010"%char
  else if Ascii.eqb e "r" then Some "013"%char
  else if Ascii.eqb e "t" then Some "009"%char
  else None.

Definition hex4 (h1 h2 h3 h4 : ascii) : option N :=
  match hex_digit h1, hex_digit h2, hex_digit h3, hex_digit h4 with
  | Some a, Some b, Some c, Some d => Some (((a * 16 + b) * 16 + c) * 16 + d)%N
  | _, _, _, _ => None
  end.

Definition push (c : ascii) (r : option (string * string)) : option (string * string) :=
  match r with
  | Some (v, rest) => Some (String c v, rest)
  | None => None
  end.

(** The characters of a string literal after its opening quote, up to
    and including the closing quote: the string denoted and the rest of
    the input.  A [\uXXXX] escape is read modulo 256 here;
    [narrow] below tells whether that lost anything. *)
Fixpoint lex_string (s : string) : option (string * string) :=
  match s with
  | EmptyString => None
  | String c s' =>
      if Ascii.eqb c "034" then Some ("", s')
      else if Ascii.eqb c "\" then
        match s' with
        | EmptyString => None
        | String e s'' =>
            match simple_escape e with
            | Some ch => push ch (lex_string s'')
            | None =>
                if Ascii.eqb e "u" then
                  match s'' with
                  | String h1 (String h2 (String h3 (String h4 r))) =>
                      match hex4 h1 h2 h3 h4 with
                      | Some n => push (ascii_of_N (n mod 256)) (lex_string r)
                      | None => None
                      end
                  | _ => None
                  end
                else None
            end
        end
      else if (code c <? 32)%N then None
      else push c (lex_string s')
  end.

Fixpoint span_digits (s : string) : string * string :=
  match s with
  | String c s' =>
      if is_digit c then let '(ds, r) := span_digits s' in (String c ds, r)
      else ("", s)
  | EmptyString => ("", s)
  end.

Definition lex_sign (s : string) : string * string :=
  match s with
  | String c r => if Ascii.eqb c "-" then ("-", r) else ("", s)
  | EmptyString => ("", s)
  end.

Definition lex_int (s : string) : option (string * string) :=
  match s with
  | String c r =>
      if Ascii.eqb c "0" then Some ("0", r)
      else if is_digit c then let '(ds, r') := span_digits r in Some (String c ds, r')
      else None
  | EmptyString => None
  end.

Definition lex_frac (s : string) : option (string * string) :=
  match s with
  | String c r =>
      if Ascii.eqb c "." then
        match span_digits r with
        | (EmptyString, _) => None
        | (ds, r') => Some (String c ds, r')
        end
      else Some ("", s)
  | EmptyString => Some ("", s)
  end.

Definition lex_exp (s : string) : option (string * string) :=
  match s with
  | String c r =>
      if Ascii.eqb c "e" || Ascii.eqb c "E" then
        let '(sg, r1) :=
          match r with
          | String d r0 =>
              if Ascii.eqb d "+" || Ascii.eqb d "-" then (String d "", r0) else ("", r)
          | EmptyString => ("", r)
          end in
        match span_digits r1 with
        | (EmptyString, _) => None
        | (ds, r') => Some (String c (sg +:+ ds), r')
        end
      else Some ("", s)
  | EmptyString => Some ("", s)
  end.

(** A number token: an optional minus sign; the integer part, a single 0
    or a digit 1-9 followed by digits; an optional fraction, a dot and
    at least one digit; an optional exponent, e or E, an optional sign
    and at least one digit. *)
Definition lex_number (s : string) : option (string * string) :=
  let '(sg, s1) := lex_sign s in
  match lex_int s1 with
  | None => None
  | Some (i, s2) =>
      match lex_frac s2 with
      | None => None
      | Some (f, s3) =>
          match lex_exp s3 with
          | None => None
          | Some (e, s4) => Some (sg +:+ i +:+ f +:+ e, s4)
          end
      end
  end.

(** *** The grammar *)

Inductive PResult (A : Type) : Type :=
| POk (a : A) (rest : string)
| PErr
| PFuel.
Arguments POk {A} a rest.
Arguments PErr {A}.
Arguments PFuel {A}.

Definition literal (word : string) (v : Json) (s : string) : PResult Json :=
  match strip word s with
  | Some rest => POk v rest
  | None => PErr
  end.

(** Past white space, the character [c]: what follows it. *)
Definition expect (c : ascii) (s : string) : option string :=
  match skip_ws s with
  | String d r => if Ascii.eqb d c then Some r else None
  | EmptyString => None
  end.

Fixpoint parse_value (fuel : nat) (s : string) : PResult Json :=
  match fuel with
  | O => PFuel
  | S fuel' =>
      match skip_ws s with
      | EmptyString => PErr
      | String c r =>
          if Ascii.eqb c "[" then
            match expect "]" r with
            | Some r' => POk (JArray []) r'
            | None => parse_elements fuel' r []
            end
          else if Ascii.eqb c "{" then
            match expect "}" r with
            | Some r' => POk (JObject []) r'
            | None => parse_members fuel' r []
            end
          else if Ascii.eqb c "034" then
            match lex_string r with
            | Some (str, r') => POk (JString str) r'
            | None => PErr
            end
          else if Ascii.eqb c "t" then literal "true" (JBool true) (String c r)
          else if Ascii.eqb c "f" then literal "false" (JBool false) (String c r)
          else if Ascii.eqb c "n" then literal "null" JNull (String c r)
          else
            match lex_number (String c r) with
            | Some (tok, r') => POk (JNumber tok) r'
            | None => PErr
            end
      end
  end
with parse_elements (fuel : nat) (s : string) (acc : list Json) : PResult Json :=
  match fuel with
  | O => PFuel
  | S fuel' =>
      match parse_value fuel' s with
      | POk v r =>
          match expect "," r with
          | Some r' => parse_elements fuel' r' (v :: acc)
          | None =>
              match expect "]" r with
              | Some r' => POk (JArray (rev (v :: acc))) r'
              | None => PErr
              end
          end
      | PErr => PErr
      | PFuel => PFuel
      end
  end
with parse_members (fuel : nat) (s : string) (acc : list (string * Json)) : PResult Json :=
  match fuel with
  | O => PFuel
  | S fuel' =>
      match expect "034" s with
      | Some r0 =>
          match lex_string r0 with
          | Some (key, r1) =>
              match expect ":" r1 with
              | Some r2 =>
                  match parse_value fuel' r2 with
                  | POk v r =>
                      match expect "," r with
                      | Some r' => parse_members fuel' r' ((key, v) :: acc)
                      | None =>
                          match expect "}" r with
                          | Some r' => POk (JObject (rev ((key, v) :: acc))) r'
                          | None => PErr
                          end
                      end
                  | PErr => PErr
                  | PFuel => PFuel
                  end
              | None => PErr
              end
          | None => PErr
          end
      | None => PErr
      end
  end.

(** Fuel enough for any document, as [parse_document_fuel] shows. *)
Definition fuel_for (doc : string) : nat := S (2 * String.length doc).

(** One value, white space around it, nothing after it. *)
Definition parse_document (doc : string) : PResult Json :=
  match parse_value (fuel_for doc) doc with
  | POk v rest =>
      match skip_ws rest with
      | EmptyString => POk v ""
      | String _ _ => PErr
      end
  | PErr => PErr
  | PFuel => PFuel
  end.

(** No [\uXXXX] escape of the document denotes a code unit above
    U+00FF.  In a well-formed document a backslash stands only inside a
    string literal and starts an escape there. *)
Fixpoint narrow (s : string) : bool :=
  match s with
  | EmptyString => true
  | String c s' =>
      if Ascii.eqb c "\" then
        match s' with
        | String e s'' =>
            if Ascii.eqb e "u" then
              match s'' with
              | String h1 (String h2 (String h3 (String h4 r))) =>
                  match hex4 h1 h2 h3 h4 with
                  | Some n => (n <? 256)%N && narrow r
                  | None => true
                  end
              | _ => true
              end
            else narrow s''
        | EmptyString => true
        end
      else narrow s'
  end.

Inductive Parsed : Type :=
| Value (v : Json)
| Malformed
| Beyond.

(** [JSON.parse] *)
Definition parse (doc : string) : Parsed :=
  match parse_document doc with
  | POk v _ => if narrow doc then Value v else Beyond
  | PErr => Malformed
  | PFuel => Malformed
  end.

(** A result that, when it is a value, left less input than it was
    given. *)
Definition consumes (result : PResult Json) (s : string) : Prop :=
  ∀ v r, result = POk v r → String.length r < String.length s.

End JSON.

(** ** The runtime: errors, the file system, the cache signal *)

Module Js.
Import JsString JSON.

Inductive Error : Type :=
| SyntaxError   (* JSON.parse, Response.json *)
| TypeError     (* not iterable, not a function, property of null *)
| ENOENT        (* readFile: no such file *)
| EACCES        (* writeFile: the medium cannot be written *)
| ENOSPC        (* writeFile: no space is left on the medium *).

(** How a call ends: with a value, with an exception (a rejected
    promise), or on a string outside U+0000..U+00FF, where the model
    says nothing. *)
Inductive Outcome (A : Type) : Type :=
| Returned (a : A)
| Threw (e : Error)
| OutOfRange.
Arguments Returned {A} a.
Arguments Threw {A} e.
Arguments OutOfRange {A}.

Inductive Event : Type :=
| ReadFile (path : string)
| WriteFile (path text : string)
| RevalidateTag (tag : string)
| ConsoleLog (data : Json).

(** The files by path, as text; whether the medium accepts writes; and
    the effects completed so far, oldest first. *)
Record World : Type := mkWorld {
  files : gmap string string;
  writable : bool;
  log : list Event;
}.

Definition record (ev : Event) (w : World) : World :=
  {| files := files w; writable := writable w; log := log w ++ [ev] |}.

Definition Action (A : Type) : Type := World → Outcome A * World.

#[global] Instance action_ret : MRet Action :=
  λ A a w, (Returned a, w).

#[global] Instance action_bind : MBind Action :=
  λ A B k m w,
    match m w with
    | (Returned a, w') => k a w'
    | (Threw e, w') => (Threw e, w')
    | (OutOfRange, w') => (OutOfRange, w')
    end.

Definition throw {A} (e : Error) : Action A := λ w, (Threw e, w).

(** A computation without effects, run in place. *)
Definition settle {A} (o : Outcome A) : Action A := λ w, (o, w).

(** [await readFile(path, 'utf8')] *)
Definition readFile (path : string) : Action string :=
  λ w, match files w !! path with
       | Some text => (Returned text, record (ReadFile path) w)
       | None => (Threw ENOENT, w)
       end.

(** [await writeFile(path, text)]: the whole document is replaced.  On a
    medium that takes no writes the open of the file is refused and the
    file is as it was.  The writes that fail after the open, and leave
    the file emptied or in part written, are those of [Faults] below. *)
Definition writeFile (path text : string) : Action unit :=
  λ w, if writable w
       then (Returned (),
             record (WriteFile path text)
               {| files := <[path := text]> (files w);
                  writable := writable w; log := log w |})
       else (Threw EACCES, w).

(** [revalidateTag(tag)] *)
Definition revalidateTag (tag : string) : Action unit :=
  λ w, (Returned (), record (RevalidateTag tag) w).

(** [console.log(data)] *)
Definition console_log (data : Json) : Action unit :=
  λ w, (Returned (), record (ConsoleLog data) w).

(** [JSON.parse(text)] *)
Definition JSON_parse (text : string) : Action Json :=
  λ w, match parse text with
       | Value v => (Returned v, w)
       | Malformed => (Threw SyntaxError, w)
       | Beyond => (OutOfRange, w)
       end.

Fixpoint units (s : string) : list Json :=
  match s with
  | EmptyString => []
  | String c s' => JString (String c "") :: units s'
  end.

(** [[...value]]: an array spreads into its elements and a string into
    its characters; nothing else that JSON.parse returns is iterable. *)
Definition spread (value : Json) : Action (list Json) :=
  match value with
  | JArray l => mret l
  | JString s => mret (units s)
  | _ => throw TypeError
  end.

(** *** Form data *)

Inductive Entry : Type :=
| Text (s : string)
| File (name : string).

(** A FormDataEntryValue or null *)
Definition FormValue : Type := option Entry.

Definition FormData : Type := list (string * Entry).

(** [formData.get(name)]: the first entry of that name, or null. *)
Fixpoint get (name : string) (formData : FormData) : FormValue :=
  match formData with
  | [] => None
  | (k, v) :: rest => if String.eqb k name then Some v else get name rest
  end.

(** What JSON.stringify writes for such a value: a string as itself,
    null as null, a File (no enumerable property of its own) as an
    empty object. *)
Definition json_of (v : FormValue) : Json :=
  match v with
  | Some (Text s) => JString s
  | Some (File _) => JObject []
  | None => JNull
  end.

(** *** Responses *)

Record Response : Type := mkResponse {
  status : nat;
  body : string;
}.

(** [new Response(body)] *)
Definition new_Response (body : string) : Response :=
  {| status := 200; body := body |}.

(** [await response.json()] *)
Definition Response_json (response : Response) : Action Json :=
  JSON_parse (body response).

End Js.

(** ** src/app/api/comments/route.ts *)

Module Api.
Import Js.

Definition GET : Action Response :=
  comments ← readFile "comments.json";
  mret (new_Response comments).

(** [await fetch(url, { next: { tags } })] as the pages call it: the
    request reaches the route handler of the URL and the handler's
    response comes back; a handler that throws is answered by the
    server with status 500 and a body that is no JSON; no other URL is
    served.  The pages do not look at the status.  The caches of the
    framework are not modelled: no stored response is served in place
    of the handler's. *)
Definition fetch (url : string) : Action Response :=
  if String.eqb url "http://localhost:3000/api/comments" then
    λ w, match GET w with
         | (Returned response, w') => (Returned response, w')
         | (Threw _, w') =>
             (Returned {| status := 500; body := "Internal Server Error" |}, w')
         | (OutOfRange, w') => (OutOfRange, w')
         end
  else throw TypeError.

End Api.

(** ** src/app/comments/action.ts *)

Module Comments.
Import JSON Js.

Definition submitComment (formData : FormData) : Action unit :=
  text ← readFile "comments.json";
  existingComments ← JSON_parse text;
  let comment := get "comment" formData in
  items ← spread existingComments;
  _ ← writeFile "comments.json" (stringify (JArray (items ++ [json_of comment])));
  revalidateTag "comments".

(** [getComments] of the comments page and of the optimistic page *)
Definition getComments : Action Json :=
  response ← Api.fetch "http://localhost:3000/api/comments";
  Response_json response.

End Comments.

(** ** src/app/search/page.tsx *)

Module Search.
Import JsString JSON Js.

(** [!searchQuery]: undefined and the empty string are falsy. *)
Definition falsy (searchQuery : option string) : bool :=
  match searchQuery with
  | None => true
  | Some q => String.eqb q ""
  end.

(** [comment.toLowerCase().includes(searchQuery.toLowerCase())]; only
    a string has [toLowerCase]. *)
Definition matches (searchQuery : string) (comment : Json) : Outcome bool :=
  match comment with
  | JString c => Returned (includes (toLowerCase c) (toLowerCase searchQuery))
  | _ => Threw TypeError
  end.

(** [Array.prototype.filter]: the callback runs on the elements in
    order, and its first exception ends the call. *)
Fixpoint Array_filter (callback : Json → Outcome bool) (l : list Json) : Outcome (list Json) :=
  match l with
  | [] => Returned []
  | x :: l' =>
      match callback x with
      | Returned keep =>
          match Array_filter callback l' with
          | Returned kept => Returned (if keep then x :: kept else kept)
          | Threw e => Threw e
          | OutOfRange => OutOfRange
          end
      | Threw e => Threw e
      | OutOfRange => OutOfRange
      end
  end.

(** [comments.filter(callback)]: only an array has [filter]. *)
Definition filter_comments (comments : Json) (searchQuery : string) : Outcome Json :=
  match comments with
  | JArray l =>
      match Array_filter (matches searchQuery) l with
      | Returned kept => Returned (JArray kept)
      | Threw e => Threw e
      | OutOfRange => OutOfRange
      end
  | _ => Threw TypeError
  end.

(** Lines 19 to 21 of [getComments], on what [response.json()] gave. *)
Definition select (comments : Json) (searchQuery : option string) : Outcome Json :=
  if falsy searchQuery then Returned comments
  else match searchQuery with
       | Some q => filter_comments comments q
       | None => Returned comments
       end.

Definition getComments (searchQuery : option string) : Action Json :=
  response ← Api.fetch "http://localhost:3000/api/comments";
  comments ← Response_json response;
  settle (select comments searchQuery).

End Search.

(** ** The optimistic comment list *)

Module Optimistic.

(** The reducer handed to [useOptimistic]:
    [(state, newComment) => [...state, newComment]] *)
Definition reducer {A} (state : list A) (newComment : A) : list A :=
  state ++ [newComment].

(** [useOptimistic(passthrough, reducer)]: while actions are pending,
    the optimistic state is the reducer run over them, in the order
    they were added, from the passthrough state. *)
Definition useOptimistic {St Act} (passthrough : St) (reducer : St → Act → St)
    (pending : list Act) : St :=
  fold_left reducer pending passthrough.

Definition optimisticComments (comments pending : list string) : list string :=
  useOptimistic comments reducer pending.

End Optimistic.

(** ** The validation library: string schemas, object schemas, issues *)

Module Zod.
Import JsString Js.

(** The classes of the email pattern; the pattern is case-insensitive. *)
Definition is_alpha (c : ascii) : bool := between 65 90 c || between 97 122 c.

Definition is_alnum (c : ascii) : bool := between 48 57 c || is_alpha c.

Definition one_of (set : string) (c : ascii) : bool :=
  includes set (String c "").

Fixpoint all_units (p : ascii → bool) (s : string) : bool :=
  match s with
  | EmptyString => true
  | String c s' => p c && all_units p s'
  end.

(** The pieces of [s] between the occurrences of [sep]. *)
Fixpoint split (sep : ascii) (s : string) : list string :=
  match s with
  | EmptyString => [""]
  | String c s' =>
      if Ascii.eqb c sep then "" :: split sep s'
      else match split sep s' with
           | piece :: pieces => String c piece :: pieces
           | [] => [String c ""]
           end
  end.

(** The local part: units of [A-Z0-9_'+-.], the last one of [A-Z0-9_+-]. *)
Fixpoint local_part (s : string) : bool :=
  match s with
  | EmptyString => false
  | String c EmptyString => is_alnum c || one_of "_+-" c
  | String c s' => (is_alnum c || one_of "_'+-." c) && local_part s'
  end.

(** A domain label: a unit of [A-Z0-9], then units of [A-Z0-9-]. *)
Definition label (s : string) : bool :=
  match s with
  | EmptyString => false
  | String c s' => is_alnum c && all_units (λ d, is_alnum d || one_of "-" d) s'
  end.

(** The last label: two or more units of [A-Z]. *)
Definition top_level (s : string) : bool :=
  all_units is_alpha s && (2 <=? String.length s).

(** One label or more, each followed by a dot, then the last label. *)
Fixpoint domain_labels (pieces : list string) : bool :=
  match pieces with
  | [] | [_] => false
  | [l; tld] => label l && top_level tld
  | l :: rest => label l && domain_labels rest
  end.

(** [emailRegex.test(s)] for the library's pattern, case-insensitive,

    ^ (?!\.) (?!.*\.\.) ( [A-Z0-9_'+\-\.]* ) [A-Z0-9_+-] @
      ( [A-Z0-9] [A-Z0-9\-]* \. )+ [A-Z]{2,} $   (written here with spaces)

    no leading dot, no two dots in a row (the rest of the pattern admits
    no line terminator, so the second lookahead sees the whole string),
    a local part, one at sign, the domain labels. *)
Definition emailRegex_test (s : string) : bool :=
  negb (startsWith s ".") && negb (includes s "..") &&
  match split "@" s with
  | [loc; domain] => local_part loc && domain_labels (split "." domain)
  | _ => false
  end.

(** The checks of a string schema, and a string schema as its checks in
    the order they were chained. *)
Inductive Check : Type :=
| min (value : nat)
| max (value : nat)
| email.

Definition ZodString : Type := list Check.

(** An object schema: its shape, key by key. *)
Definition ZodObject : Type := list (string * ZodString).

Inductive IssueCode : Type :=
| invalid_type (expected received : string)
| too_small (minimum : nat)
| too_big (maximum : nat)
| invalid_string (validation : string).

Record ZodIssue : Type := mkIssue {
  code : IssueCode;
  path : list string;
}.

Definition ZodError : Type := list ZodIssue.

(** The default error map. *)
Definition message (c : IssueCode) : string :=
  match c with
  | invalid_type expected received =>
      if String.eqb received "undefined" then "Required"
      else "Expected " +:+ expected +:+ ", received " +:+ received
  | too_small minimum =>
      "String must contain at least " +:+ pretty minimum +:+ " character(s)"
  | too_big maximum =>
      "String must contain at most " +:+ pretty maximum +:+ " character(s)"
  | invalid_string validation => "Invalid " +:+ validation
  end.

(** One check on a string: the issue it raises, if any. *)
Definition run_check (data : string) (check : Check) : list IssueCode :=
  match check with
  | min value => if String.length data <? value then [too_small value] else []
  | max value => if value <? String.length data then [too_big value] else []
  | email => if emailRegex_test data then [] else [invalid_string "email"]
  end.

(** The type the library sees in a property of the parsed object:
    [None] is undefined (no such property), [Some None] is null. *)
Definition getParsedType (input : option FormValue) : string :=
  match input with
  | None => "undefined"
  | Some None => "null"
  | Some (Some (Text _)) => "string"
  | Some (Some (File _)) => "object"
  end.

(** [ZodString._parse]: an input that is no string raises
    [invalid_type] and no check runs; on a string every check runs, and
    every violated one raises its issue. *)
Definition parse_string (schema : ZodString) (input : option FormValue) : list IssueCode :=
  match input with
  | Some (Some (Text data)) => concat (map (run_check data) schema)
  | _ => [invalid_type "string" (getParsedType input)]
  end.

(** An issue raised under a key of the parsed object. *)
Definition at_key (key : string) (c : IssueCode) : ZodIssue :=
  {| code := c; path := [key] |}.

(** [ZodObject._parse] on an object: every key of the shape is parsed,
    in the order of the shape, its issues under the path of the key. *)
Definition parse_object (schema : ZodObject) (input : gmap string FormValue) : ZodError :=
  concat (map (λ '(key, field), at_key key <$> parse_string field (input !! key))
              schema).

(** The parsed object: the properties of the shape, unknown keys
    stripped. *)
Fixpoint output (schema : ZodObject) (input : gmap string FormValue) : list (string * string) :=
  match schema with
  | [] => []
  | (key, _) :: rest =>
      match input !! key with
      | Some (Some (Text data)) => (key, data) :: output rest input
      | _ => output rest input
      end
  end.

Record SafeParseReturn : Type := mkSafeParse {
  success : bool;
  error : option ZodError;
  data : option (list (string * string));
}.

(** [schema.safeParse(input)] *)
Definition safeParse (schema : ZodObject) (input : gmap string FormValue) : SafeParseReturn :=
  match parse_object schema input with
  | [] => {| success := true; error := None; data := Some (output schema input) |}
  | issues => {| success := false; error := Some issues; data := None |}
  end.

Record Flattened : Type := mkFlattened {
  formErrors : list string;
  fieldErrors : gmap string (list string);
}.

(** [error.flatten()]: the message of every issue, under the first
    key of its path, or among the form errors if the path is empty. *)
Fixpoint flatten (issues : ZodError) (acc : Flattened) : Flattened :=
  match issues with
  | [] => acc
  | sub :: rest =>
      flatten rest
        match path sub with
        | key :: _ =>
            {| formErrors := formErrors acc;
               fieldErrors :=
                 <[key := default [] (fieldErrors acc !! key) ++ [message (code sub)]]>
                   (fieldErrors acc) |}
        | [] =>
            {| formErrors := formErrors acc ++ [message (code sub)];
               fieldErrors := fieldErrors acc |}
        end
  end.

Definition ZodError_flatten (issues : ZodError) : Flattened :=
  flatten issues {| formErrors := []; fieldErrors := ∅ |}.

End Zod.

(** ** The feedback action *)

Module Feedback.
Import JSON Js Zod.

Definition feedbackSchema : ZodObject :=
  [ ("name", [min 2; max 100]);
    ("email", [email]);
    ("feedback", [min 10; max 1000]) ].

(** What the action returns: [{ errors, values }] or
    [{ success: true }]. *)
Inductive State : Type :=
| ErrorsValues (errors : gmap string (list string)) (values : gmap string FormValue)
| Success (success : bool).

Definition formValues_of (formData : FormData) : gmap string FormValue :=
  <["name" := get "name" formData]>
    (<["email" := get "email" formData]>
       {[ "feedback" := get "feedback" formData ]}).

Definition submitFeedback {Prev} (_ : Prev) (formData : FormData) : Action State :=
  let formValues := formValues_of formData in
  let result := safeParse feedbackSchema formValues in
  if negb (success result) then
    match error result with
    | Some error => mret (ErrorsValues (fieldErrors (ZodError_flatten error)) formValues)
    | None => throw TypeError
    end
  else
    _ ← console_log
          match data result with
          | Some data => JObject (map (λ kv, (fst kv, JString (snd kv))) data)
          | None => JNull
          end;
    mret (Success true).

End Feedback.


(** ** Scenarios *)

Module Scenario.
Import JSON Js.

Definition board (comments : list string) (writable : bool) : World :=
  {| files := {[ "comments.json" := stringify (JArray (JString <$> comments)) ]};
     writable := writable;
     log := [] |}.

(** A board with two comments, on a medium that takes writes and on one
    that does not. *)
Definition two_comments : World := board ["a"; "b"] true.

Definition read_only : World := board ["a"; "b"] false.

(** A board whose document was cut short after its first comment. *)
Definition cut_short_doc : string := "[" +:+ quote "a" +:+ ",".

Definition cut_short : World :=
  {| files := {[ "comments.json" := cut_short_doc ]}; writable := true; log := [] |}.

(** The board of the search scenario. *)
Definition hello_world_help : World := board ["Hello"; "world"; "Help"] true.

(** The submissions of the feedback scenarios, and a world with no file. *)
Definition short_feedback : FormData :=
  [("name", Text "A"); ("email", Text "bad"); ("feedback", Text "short")].

Definition good_feedback : FormData :=
  [("name", Text "Al"); ("email", Text "al@example.com");
   ("feedback", Text "long enough")].

Definition idle : World := {| files := ∅; writable := true; log := [] |}.

End Scenario.

(** ** The pages and the client components *)

(** The search page: the query of the URL goes to [getComments], and
    what comes back to the [Search] component. *)
Module SearchPage.
Import Js.

Definition SearchPage (searchParams : gmap string string) : Action JSON.Json :=
  Search.getComments (searchParams !! "query").

End SearchPage.

(** The comments page: its form has [submitComment] as its action, so
    every submission of the form is a call of its own; one that throws
    does not keep the next from running. *)
Module CommentsForm.
Import Js.

Definition after_submission (w : World) (formData : FormData) : World :=
  snd (Comments.submitComment formData w).

Definition after_submissions (forms : list FormData) (w : World) : World :=
  fold_left after_submission forms w.

(** The text a stored form value has in the document. *)
Definition text (v : FormValue) : string := JSON.stringify (json_of v).

(** How often the cache signal was invoked. *)
Definition is_signal (ev : Event) : bool :=
  match ev with
  | RevalidateTag _ => true
  | _ => false
  end.

Definition signals (events : list Event) : nat :=
  length (List.filter is_signal events).

(** A world that differs from another by one read of the log at most. *)
Definition only_read (w w' : World) : Prop :=
  files w' = files w ∧ writable w' = writable w ∧
  (log w' = log w ∨ log w' = log w ++ [ReadFile "comments.json"]).

(** The characters of a string, each as a string. *)
Fixpoint characters (s : string) : list string :=
  match s with
  | EmptyString => []
  | String c s' => String c "" :: characters s'
  end.

(** A value of the document that is a string. *)
Definition is_string (v : JSON.Json) : bool :=
  match v with
  | JSON.JString _ => true
  | _ => false
  end.

End CommentsForm.

(** The optimistic comments component.  The list it shows holds what
    the server returned and, after them, the pending values as
    [formData.get] gave them. *)
Module OptimisticForm.
Import Js.

(** [addOptimisticComment(value)]: one more pending value. *)
Definition addOptimisticComment (pending : list FormValue) (value : FormValue)
    : list FormValue :=
  pending ++ [value].

(** [handleFormSubmit]: the value is added to the overlay first, then
    the action runs. *)
Definition handleFormSubmit (formData : FormData) (pending : list FormValue)
    : list FormValue * Action unit :=
  (addOptimisticComment pending (get "comment" formData),
   Comments.submitComment formData).

(** [optimisticComments], for the comments the page was given. *)
Definition optimisticComments (comments pending : list FormValue) : list FormValue :=
  Optimistic.useOptimistic comments Optimistic.reducer pending.

End OptimisticForm.

(** The feedback form: the state of [useActionState(submitFeedback,
    null)] and what the form shows of it. *)
Module FeedbackForm.
Import Js Feedback.

(** [formAction]: the action runs on the state so far and its result is
    the next state. *)
Definition formAction (state : option State) (formData : FormData)
    : Action (option State) :=
  next ← submitFeedback state formData;
  mret (Some next).

(** [state?.values?.[key] ?? ''] *)
Definition defaultValue (state : option State) (key : string) : Entry :=
  match state with
  | Some (ErrorsValues _ values) =>
      match values !! key with
      | Some (Some entry) => entry
      | _ => Text ""
      end
  | _ => Text ""
  end.

(** [state?.errors?.[key]]: the messages of the paragraph under the
    field, if there is one. *)
Definition errorsShown (state : option State) (key : string) : option (list string) :=
  match state with
  | Some (ErrorsValues errors _) => errors !! key
  | _ => None
  end.

(** [state?.success]: whether the success message is shown. *)
Definition successShown (state : option State) : bool :=
  match state with
  | Some (Success success) => success
  | _ => false
  end.

(** The messages of a field with issues; no property for a field
    without. *)
Definition messages_of (issues : list Zod.IssueCode) : option (list string) :=
  match issues with
  | [] => None
  | _ => Some (Zod.message <$> issues)
  end.

End FeedbackForm.

(** ** The write of the log, when it fails *)

Module Faults.
Import JSON Js.

(** [submitComment] of src/app/comments/action.ts with the [writeFile]
    of the runtime as a parameter, for what the action does when the
    write fails in whatever way; with [Js.writeFile] it is
    [Comments.submitComment]. *)
Definition submitComment_on (writeFile : string → string → Action unit)
    (formData : FormData) : Action unit :=
  text ← readFile "comments.json";
  existingComments ← JSON_parse text;
  let comment := get "comment" formData in
  items ← spread existingComments;
  _ ← writeFile "comments.json" (stringify (JArray (items ++ [json_of comment])));
  revalidateTag "comments".

(** How [writeFile] of node fails.  It opens the file with the flag [w],
    which empties it, and then writes the text.  Either the open is
    refused, and the file is as it was; or a write after the open
    fails, and the file holds as much of the text as had been written,
    which can be nothing. *)
Inductive Fault : Type :=
| AtOpen (e : Error)
| AfterOpen (e : Error) (written : nat).

Definition failing_writeFile (fault : Fault) (path text : string) : Action unit :=
  λ w, match fault with
       | AtOpen e => (Threw e, w)
       | AfterOpen e written =>
           (Threw e,
            {| files := <[path := String.substring 0 written text]> (files w);
               writable := writable w; log := log w |})
       end.

End Faults.

(** * Properties *)

(** ** Strings *)

Module StringFacts.
Import JsString.

Lemma append_assoc (a b c : string) : (a +:+ b) +:+ c = a +:+ (b +:+ c).
Proof. induction a as [|x a IH]; simpl; [reflexivity | now rewrite IH]. Qed.

Lemma append_empty (a : string) : a +:+ "" = a.
Proof. induction a as [|x a IH]; simpl; [reflexivity | now rewrite IH]. Qed.

Lemma length_append (a b : string) :
  String.length (a +:+ b) = String.length a + String.length b.
Proof. induction a as [|x a IH]; simpl; [reflexivity | now rewrite IH]. Qed.

Lemma startsWith_spec (s t : string) :
  startsWith s t = true ↔ ∃ post, s = t +:+ post.
Proof.
  revert s; induction t as [|b t IH]; intros s; simpl.
  - split; [intros _; now exists s | reflexivity].
  - destruct s as [|a s].
    + split; [discriminate | intros [post H]; discriminate].
    + rewrite andb_true_iff, IH. split.
      * intros [Hab [post ->]]. apply Ascii.eqb_eq in Hab as ->. now exists post.
      * intros [post H]. injection H as -> ->. split; [apply Ascii.eqb_refl | now exists post].
Qed.

(** [includes] decides the substring relation. *)
Lemma includes_spec (s t : string) :
  includes s t = true ↔ is_substring t s.
Proof.
  unfold is_substring. induction s as [|a s IH].
  - simpl. rewrite orb_false_r, startsWith_spec. split.
    + intros [post ->]. now exists "", post.
    + intros [[|x pre] [post H]]; [now exists post | discriminate].
  - cbn [includes]. rewrite orb_true_iff, startsWith_spec, IH. split.
    + intros [[post ->] | [pre [post ->]]].
      * now exists "", post.
      * now exists (String a pre), post.
    + intros [[|x pre] [post H]].
      * left. now exists post.
      * right. injection H as -> ->. now exists pre, post.
Qed.

Lemma toLowerCase_length (s : string) :
  String.length (toLowerCase s) = String.length s.
Proof. induction s as [|c s IH]; simpl; [reflexivity | now rewrite IH]. Qed.

#[global] Instance contains_ci_dec (query record : string) :
  Decision (contains_ci query record) :=
  match includes (toLowerCase record) (toLowerCase query) as b
        return includes (toLowerCase record) (toLowerCase query) = b → _ with
  | true => λ H, left (proj1 (includes_spec _ _) H)
  | false => λ H, right (λ H', eq_ind true (λ b, b = false → False)
                                 (λ E, Bool.diff_true_false E) _
                                 (eq_sym (proj2 (includes_spec _ _) H')) H)
  end eq_refl.

End StringFacts.

(** ** JSON: what [stringify] writes for a list of strings, [parse] reads back *)

Module JsonFacts.
Import JsString JSON StringFacts.

Lemma lex_string_unit (c : ascii) (t : string) :
  lex_string (escape_unit c +:+ t) = push c (lex_string t).
Proof. destruct c as [[] [] [] [] [] [] [] []]; reflexivity. Qed.

Lemma lex_string_escape (s rest : string) :
  lex_string (escape s +:+ String "034" rest) = Some (s, rest).
Proof.
  induction s as [|c s IH]; [reflexivity |].
  cbn [escape]. rewrite append_assoc, lex_string_unit, IH. reflexivity.
Qed.

Lemma narrow_unit (c : ascii) (t : string) :
  narrow (escape_unit c +:+ t) = narrow t.
Proof. destruct c as [[] [] [] [] [] [] [] []]; reflexivity. Qed.

Lemma narrow_escape (s t : string) : narrow (escape s +:+ t) = narrow t.
Proof.
  induction s as [|c s IH]; [reflexivity |].
  cbn [escape]. now rewrite append_assoc, narrow_unit.
Qed.

Lemma narrow_quote (s t : string) : narrow (quote s +:+ t) = narrow t.
Proof.
  unfold quote. cbn [String.append]. rewrite append_assoc.
  change (narrow (escape s +:+ String "034" t) = narrow t).
  now rewrite narrow_escape.
Qed.

Lemma parse_value_quote (fuel : nat) (s rest : string) :
  parse_value (S fuel) (quote s +:+ rest) = POk (JString s) rest.
Proof.
  unfold quote. cbn [String.append]. rewrite append_assoc.
  cbn. now rewrite lex_string_escape.
Qed.

Lemma length_quote (s : string) : 2 ≤ String.length (quote s).
Proof. unfold quote. cbn. rewrite length_append. cbn. lia. Qed.

Lemma length_join_quote (l : list string) :
  2 * length l ≤ String.length (join "," (quote <$> l)).
Proof.
  induction l as [|x [|y l] IH]; [cbn; lia | |].
  - cbn. pose proof (length_quote x). cbn in *. lia.
  - change (join "," (quote <$> x :: y :: l))
      with (quote x +:+ "," +:+ join "," (quote <$> y :: l)).
    rewrite !length_append. pose proof (length_quote x).
    cbn [length] in *. lia.
Qed.

Lemma stringify_strings (l : list string) :
  stringify (JArray (JString <$> l)) = "[" +:+ join "," (quote <$> l) +:+ "]".
Proof.
  cbn [stringify]. do 3 f_equal.
  induction l as [|x l IH]; [reflexivity |]. cbn [fmap list_fmap map] in *.
  now rewrite IH.
Qed.

Lemma parse_elements_next (fuel : nat) (s r : string) (v : Json) (acc : list Json) :
  parse_value fuel s = POk v (String "," r) →
  parse_elements (S fuel) s acc = parse_elements fuel r (v :: acc).
Proof. intros H. cbn [parse_elements]. now rewrite H. Qed.

Lemma parse_elements_last (fuel : nat) (s r : string) (v : Json) (acc : list Json) :
  parse_value fuel s = POk v (String "]" r) →
  parse_elements (S fuel) s acc = POk (JArray (rev (v :: acc))) r.
Proof. intros H. cbn [parse_elements]. now rewrite H. Qed.

(** The elements of a written array of strings are read back one by one. *)
Lemma parse_elements_strings (l : list string) :
  ∀ (fuel : nat) (x : string) (acc : list Json) (rest : string),
    length l + 1 < fuel →
    parse_elements fuel (join "," (quote <$> x :: l) +:+ String "]" rest) acc
    = POk (JArray (rev acc ++ (JString <$> x :: l))) rest.
Proof.
  induction l as [|y l IH]; intros fuel x acc rest Hfuel.
  - destruct fuel as [|[|fuel]]; [cbn in Hfuel; lia ..|].
    cbn [join fmap list_fmap].
    now rewrite (parse_elements_last _ _ rest (JString x)) by apply parse_value_quote.
  - destruct fuel as [|[|fuel]]; [cbn in Hfuel; lia ..|].
    change (join "," (quote <$> x :: y :: l))
      with (quote x +:+ "," +:+ join "," (quote <$> y :: l)).
    rewrite !append_assoc.
    rewrite (parse_elements_next _ _ (join "," (quote <$> y :: l) +:+ String "]" rest)
               (JString x)) by apply parse_value_quote.
    rewrite IH by (cbn in *; lia).
    cbn [rev fmap list_fmap]. now rewrite <- app_assoc.
Qed.

Lemma parse_value_open (fuel : nat) (t : string) :
  parse_value (S fuel) (String "[" (String "034" t))
  = parse_elements fuel (String "034" t) [].
Proof. reflexivity. Qed.

Lemma join_quote_head (x : string) (l : list string) (t : string) :
  ∃ u, join "," (quote <$> x :: l) +:+ t = String "034" u.
Proof. destruct l; cbn; eauto. Qed.

Lemma parse_value_strings (l : list string) (fuel : nat) :
  length l < fuel →
  parse_value (S fuel) ("[" +:+ join "," (quote <$> l) +:+ "]")
  = POk (JArray (JString <$> l)) "".
Proof.
  intros Hfuel. destruct l as [|x l]; [reflexivity |].
  cbn [String.append].
  destruct (join_quote_head x l "]") as [u Hu].
  rewrite Hu, parse_value_open, <- Hu.
  now rewrite parse_elements_strings by (cbn in *; lia).
Qed.

Lemma narrow_strings (l : list string) (t : string) :
  narrow (join "," (quote <$> l) +:+ t) = narrow t.
Proof.
  induction l as [|x [|y l] IH]; [reflexivity | |].
  - cbn [join fmap list_fmap]. apply narrow_quote.
  - change (join "," (quote <$> x :: y :: l))
      with (quote x +:+ "," +:+ join "," (quote <$> y :: l)).
    rewrite !append_assoc, narrow_quote. exact IH.
Qed.

(** [JSON.parse(JSON.stringify(l))] is [l], for every array of strings. *)
Lemma parse_stringify_strings (l : list string) :
  parse (stringify (JArray (JString <$> l))) = Value (JArray (JString <$> l)).
Proof.
  rewrite stringify_strings. unfold parse, parse_document, fuel_for.
  rewrite parse_value_strings.
  - change (narrow ("[" +:+ join "," (quote <$> l) +:+ "]"))
      with (narrow (join "," (quote <$> l) +:+ "]")).
    now rewrite narrow_strings.
  - pose proof (length_join_quote l). cbn [String.append String.length].
    rewrite length_append. lia.
Qed.

(** *** The fuel of [parse_document] is never used up *)

Lemma skip_ws_length (s : string) :
  String.length (skip_ws s) ≤ String.length s.
Proof.
  induction s as [|c s IH]; cbn; [lia |].
  destruct (is_ws c); cbn; lia.
Qed.

Lemma expect_length (c : ascii) (s r : string) :
  expect c s = Some r → String.length r < String.length s.
Proof.
  unfold expect. pose proof (skip_ws_length s) as Hs.
  destruct (skip_ws s) as [|d t]; [discriminate |].
  destruct (Ascii.eqb d c); [|discriminate].
  intros [= ->]. cbn in Hs. lia.
Qed.

Lemma push_Some (c : ascii) (x : option (string * string)) (v r : string) :
  push c x = Some (v, r) → ∃ v', x = Some (v', r) ∧ v = String c v'.
Proof. destruct x as [[v' r']|]; cbn; [intros [= <- <-]; eauto | discriminate]. Qed.

Lemma lex_string_length_below (n : nat) :
  ∀ s v r, String.length s < n → lex_string s = Some (v, r) →
           String.length r < String.length s.
Proof.
  induction n as [|n IH]; intros s v r Hn H; [lia |].
  destruct s as [|c s]; [discriminate |]. cbn [lex_string] in H.
  destruct (Ascii.eqb c "034"); [injection H as <- <-; cbn; lia |].
  destruct (Ascii.eqb c "\").
  - destruct s as [|e s]; [discriminate |].
    destruct (simple_escape e).
    + apply push_Some in H as (v' & H & _).
      apply IH in H; cbn in *; lia.
    + destruct (Ascii.eqb e "u"); [|discriminate].
      destruct s as [|h1 [|h2 [|h3 [|h4 s]]]]; try discriminate.
      destruct (hex4 h1 h2 h3 h4); [|discriminate].
      apply push_Some in H as (v' & H & _).
      apply IH in H; cbn in *; lia.
  - destruct (code c <? 32)%N; [discriminate |].
    apply push_Some in H as (v' & H & _).
    apply IH in H; cbn in *; lia.
Qed.

Lemma lex_string_length (s v r : string) :
  lex_string s = Some (v, r) → String.length r < String.length s.
Proof. apply (lex_string_length_below (S (String.length s))). lia. Qed.

Lemma span_digits_length (s : string) :
  String.length (snd (span_digits s)) ≤ String.length s.
Proof.
  induction s as [|c s IH]; cbn; [lia |].
  destruct (is_digit c); [|cbn; lia].
  destruct (span_digits s); cbn in *; lia.
Qed.

Lemma lex_sign_length (s : string) :
  String.length (snd (lex_sign s)) ≤ String.length s.
Proof.
  destruct s as [|c s]; cbn; [lia |]. destruct (Ascii.eqb c "-"); cbn; lia.
Qed.

Lemma lex_int_length (s i r : string) :
  lex_int s = Some (i, r) → String.length r < String.length s.
Proof.
  destruct s as [|c s]; cbn; [discriminate |].
  destruct (Ascii.eqb c "0"); [intros [= <- <-]; lia |].
  destruct (is_digit c); [|discriminate].
  pose proof (span_digits_length s). destruct (span_digits s).
  intros [= <- <-]. cbn in *. lia.
Qed.

Lemma lex_frac_length (s f r : string) :
  lex_frac s = Some (f, r) → String.length r ≤ String.length s.
Proof.
  destruct s as [|c s]; cbn; [intros [= <- <-]; cbn; lia |].
  destruct (Ascii.eqb c "."); [|intros [= <- <-]; cbn; lia].
  pose proof (span_digits_length s). destruct (span_digits s) as [[|d ds] r'];
    [discriminate |].
  intros [= <- <-]. cbn in *. lia.
Qed.

Lemma lex_exp_length (s e r : string) :
  lex_exp s = Some (e, r) → String.length r ≤ String.length s.
Proof.
  destruct s as [|c s]; cbn; [intros [= <- <-]; cbn; lia |].
  destruct (Ascii.eqb c "e" || Ascii.eqb c "E"); [|intros [= <- <-]; cbn; lia].
  destruct s as [|d s].
  - cbn. discriminate.
  - destruct (Ascii.eqb d "+" || Ascii.eqb d "-").
    + pose proof (span_digits_length s). destruct (span_digits s) as [[|x ds] r'];
        [discriminate |].
      intros [= <- <-]. cbn in *. lia.
    + pose proof (span_digits_length (String d s)).
      destruct (span_digits (String d s)) as [[|x ds] r']; [discriminate |].
      intros [= <- <-]. cbn in *. lia.
Qed.

Lemma lex_number_length (s tok r : string) :
  lex_number s = Some (tok, r) → String.length r < String.length s.
Proof.
  unfold lex_number. pose proof (lex_sign_length s) as H0.
  destruct (lex_sign s) as [sg s1]. cbn in H0.
  destruct (lex_int s1) as [[i s2]|] eqn:H1; [|discriminate].
  destruct (lex_frac s2) as [[f s3]|] eqn:H2; [|discriminate].
  destruct (lex_exp s3) as [[e s4]|] eqn:H3; [|discriminate].
  intros [= <- <-].
  apply lex_int_length in H1. apply lex_frac_length in H2.
  apply lex_exp_length in H3. lia.
Qed.

Lemma strip_length (p s r : string) :
  strip p s = Some r → String.length s = String.length p + String.length r.
Proof.
  revert s; induction p as [|b p IH]; intros s; cbn.
  - now intros [= ->].
  - destruct s as [|a s]; [discriminate |].
    destruct (Ascii.eqb a b); [|discriminate].
    intros H. apply IH in H. cbn. lia.
Qed.

Lemma literal_length (word : string) (v v' : Json) (s r : string) :
  0 < String.length word →
  literal word v s = POk v' r → String.length r < String.length s.
Proof.
  unfold literal. intros Hw. destruct (strip word s) eqn:H; [|discriminate].
  intros [= <- <-]. apply strip_length in H. lia.
Qed.

(** Whatever is parsed, something of the input was read. *)
Lemma parse_consumes (fuel : nat) :
  (∀ s, consumes (parse_value fuel s) s) ∧
  (∀ s acc, consumes (parse_elements fuel s acc) s) ∧
  (∀ s acc, consumes (parse_members fuel s acc) s).
Proof.
  induction fuel as [|fuel (IHv & IHe & IHm)];
    [repeat split; intros; intros ? ? [=] |].
  split; [|split].
  - intros s v r. cbn [parse_value].
    pose proof (skip_ws_length s) as Hs.
    destruct (skip_ws s) as [|c t]; [discriminate |]. cbn in Hs.
    destruct (Ascii.eqb c "[").
    { destruct (expect "]" t) as [r'|] eqn:He.
      - intros [= <- <-]. apply expect_length in He. lia.
      - intros H. apply IHe in H. lia. }
    destruct (Ascii.eqb c "{").
    { destruct (expect "}" t) as [r'|] eqn:He.
      - intros [= <- <-]. apply expect_length in He. lia.
      - intros H. apply IHm in H. lia. }
    destruct (Ascii.eqb c "034").
    { destruct (lex_string t) as [[str r']|] eqn:Hl; [|discriminate].
      intros [= <- <-]. apply lex_string_length in Hl. lia. }
    destruct (Ascii.eqb c "t").
    { intros H. apply literal_length in H; cbn in *; lia. }
    destruct (Ascii.eqb c "f").
    { intros H. apply literal_length in H; cbn in *; lia. }
    destruct (Ascii.eqb c "n").
    { intros H. apply literal_length in H; cbn in *; lia. }
    destruct (lex_number (String c t)) as [[tok r']|] eqn:Hl; [|discriminate].
    intros [= <- <-]. apply lex_number_length in Hl. cbn in *. lia.
  - intros s acc v r. cbn [parse_elements].
    destruct (parse_value fuel s) as [v0 r0| |] eqn:Hv; try discriminate.
    apply IHv in Hv.
    destruct (expect "," r0) as [r1|] eqn:H1.
    + intros H. apply IHe in H. apply expect_length in H1. lia.
    + destruct (expect "]" r0) as [r1|] eqn:H2; [|discriminate].
      intros [= <- <-]. apply expect_length in H2. lia.
  - intros s acc v r. cbn [parse_members].
    destruct (expect "034" s) as [r0|] eqn:H0; [|discriminate].
    destruct (lex_string r0) as [[key r1]|] eqn:Hk; [|discriminate].
    destruct (expect ":" r1) as [r2|] eqn:Hc; [|discriminate].
    destruct (parse_value fuel r2) as [v0 r3| |] eqn:Hv; try discriminate.
    apply expect_length in H0. apply lex_string_length in Hk.
    apply expect_length in Hc. apply IHv in Hv.
    destruct (expect "," r3) as [r4|] eqn:H1.
    + intros H. apply IHm in H. apply expect_length in H1. lia.
    + destruct (expect "}" r3) as [r4|] eqn:H2; [|discriminate].
      intros [= <- <-]. apply expect_length in H2. lia.
Qed.

(** Twice the length of the input, and one more, is fuel enough. *)
Lemma parse_fuel (fuel : nat) :
  (∀ s, 2 * String.length s < fuel → parse_value fuel s ≠ PFuel) ∧
  (∀ s acc, 2 * String.length s + 1 < fuel → parse_elements fuel s acc ≠ PFuel) ∧
  (∀ s acc, 2 * String.length s + 1 < fuel → parse_members fuel s acc ≠ PFuel).
Proof.
  induction fuel as [|fuel (IHv & IHe & IHm)]; [repeat split; intros; lia |].
  split; [|split].
  - intros s Hf. cbn [parse_value].
    pose proof (skip_ws_length s) as Hs.
    destruct (skip_ws s) as [|c t]; [discriminate |]. cbn in Hs.
    destruct (Ascii.eqb c "[").
    { destruct (expect "]" t); [discriminate | apply IHe; lia]. }
    destruct (Ascii.eqb c "{").
    { destruct (expect "}" t); [discriminate | apply IHm; lia]. }
    destruct (Ascii.eqb c "034").
    { destruct (lex_string t) as [[? ?]|]; discriminate. }
    unfold literal.
    destruct (Ascii.eqb c "t"); [destruct (strip _ _); discriminate |].
    destruct (Ascii.eqb c "f"); [destruct (strip _ _); discriminate |].
    destruct (Ascii.eqb c "n"); [destruct (strip _ _); discriminate |].
    destruct (lex_number _) as [[? ?]|]; discriminate.
  - intros s acc Hf. cbn [parse_elements].
    destruct (parse_value fuel s) as [v0 r0| |] eqn:Hv; [|discriminate|].
    + apply (proj1 (parse_consumes fuel)) in Hv.
      destruct (expect "," r0) as [r1|] eqn:H1.
      * apply expect_length in H1. apply IHe. lia.
      * destruct (expect "]" r0); discriminate.
    + exfalso. revert Hv. apply IHv. lia.
  - intros s acc Hf. cbn [parse_members].
    destruct (expect "034" s) as [r0|] eqn:H0; [|discriminate].
    destruct (lex_string r0) as [[key r1]|] eqn:Hk; [|discriminate].
    destruct (expect ":" r1) as [r2|] eqn:Hc; [|discriminate].
    apply expect_length in H0. apply lex_string_length in Hk.
    apply expect_length in Hc.
    destruct (parse_value fuel r2) as [v0 r3| |] eqn:Hv; [|discriminate|].
    + apply (proj1 (parse_consumes fuel)) in Hv.
      destruct (expect "," r3) as [r4|] eqn:H1.
      * apply expect_length in H1. apply IHm. lia.
      * destruct (expect "}" r3); discriminate.
    + exfalso. revert Hv. apply IHv. lia.
Qed.

(** So [parse] answers [Malformed] only for a document that is no JSON
    text. *)
Lemma parse_document_fuel (doc : string) : parse_document doc ≠ PFuel.
Proof.
  unfold parse_document.
  pose proof (proj1 (parse_fuel (fuel_for doc)) doc) as H.
  destruct (parse_value (fuel_for doc) doc) as [v r| |];
    [destruct (skip_ws r); discriminate | discriminate |].
  apply H. unfold fuel_for. lia.
Qed.

End JsonFacts.

(** ** The models on small inputs *)

Module Checks.
Import JsString JSON Js Zod Scenario.

Example quote_a :
  quote "a" = String (ascii_of_nat 34) (String "a" (String (ascii_of_nat 34) "")).
Proof. reflexivity. Qed.

Example escape_controls :
  escape (String "010" (String "001" (String "127" "\"))) = "\n\u0001" +:+ String "127" "\\".
Proof. reflexivity. Qed.

Example parse_values :
  parse " [1, -2.5e+3, true, false, null, {}, [ ]] "
  = Value (JArray [JNumber "1"; JNumber "-2.5e+3"; JBool true; JBool false;
                   JNull; JObject []; JArray []]).
Proof. reflexivity. Qed.

Example parse_members :
  parse ("{ " +:+ quote "k" +:+ " : [" +:+ quote "v\/" +:+ "] }")
  = Value (JObject [("k", JArray [JString "v\/"])]).
Proof. reflexivity. Qed.

Example parse_unicode_escapes :
  parse (String "034" ("\" +:+ "u0041" +:+ "\" +:+ "u00e9" +:+ "\n" +:+ String "034" ""))
  = Value (JString (String "A" (String "233" (String "010" "")))).
Proof. reflexivity. Qed.

Example parse_wide_escape :
  parse (String "034" ("\" +:+ "u0141" +:+ String "034" "")) = Beyond.
Proof. reflexivity. Qed.

Example parse_rejects :
  parse <$> [""; "[1,]"; "01"; "1."; "[1 2]"; "tru"; "nul"; "{1:2}"; "[1]]";
             String "034" "open"; String "034" (String "009" (String "034" ""))]
  = replicate 11 Malformed.
Proof. reflexivity. Qed.

Example toLowerCase_hello : toLowerCase "Hello WORLD" = "hello world".
Proof. reflexivity. Qed.

Example toLowerCase_latin1 :
  toLowerCase (String "201" (String "215" (String "223" "")))
  = String "233" (String "215" (String "223" "")).
Proof. reflexivity. Qed.

Example includes_hel :
  includes "hello" "hel" = true ∧ includes "world" "hel" = false ∧
  includes "help" "" = true ∧ includes "" "h" = false.
Proof. repeat split. Qed.

Example emails_accepted :
  emailRegex_test <$> ["a@b.co"; "john.doe@example.com"; "a'b+c@x-y.z9.org"; "A_1@EXAMPLE.COM"]
  = [true; true; true; true].
Proof. reflexivity. Qed.

Example emails_rejected :
  emailRegex_test <$> ["bad"; ".a@b.co"; "a..b@c.de"; "a.@b.co"; "a'@b.co"; "@b.co";
                       "a@b"; "a@b.c"; "a@b.c9"; "a@-b.co"; "a@.co"; "a@b..co";
                       "a@b@c.de"; "a@b.co."; "a b@c.de"]
  = replicate 15 false.
Proof. reflexivity. Qed.

(** The first comment on an empty board: read, write, one signal. *)
Example first_comment :
  Comments.submitComment [("comment", Text "hello")] (board [] true)
  = (Returned (),
     {| files := {[ "comments.json" := stringify (JArray [JString "hello"]) ]};
        writable := true;
        log := [ReadFile "comments.json";
                WriteFile "comments.json" (stringify (JArray [JString "hello"]));
                RevalidateTag "comments"] |}).
Proof. reflexivity. Qed.

(** A submission without the field stores null; a stored string is
    spread into its characters; a stored number is not iterable. *)
Example comment_absent :
  log (snd (Comments.submitComment [] two_comments))
  = [ReadFile "comments.json";
     WriteFile "comments.json" (stringify (JArray [JString "a"; JString "b"; JNull]));
     RevalidateTag "comments"].
Proof. reflexivity. Qed.

Example stored_string_is_spread :
  log (snd (Comments.submitComment [("comment", Text "x")]
              {| files := {[ "comments.json" := quote "ab" ]}; writable := true; log := [] |}))
  = [ReadFile "comments.json";
     WriteFile "comments.json" (stringify (JArray [JString "a"; JString "b"; JString "x"]));
     RevalidateTag "comments"].
Proof. reflexivity. Qed.

Example stored_number_is_not_iterable :
  Comments.submitComment [("comment", Text "x")]
    {| files := {[ "comments.json" := "42" ]}; writable := true; log := [] |}
  = (Threw TypeError,
     {| files := {[ "comments.json" := "42" ]}; writable := true;
        log := [ReadFile "comments.json"] |}).
Proof. reflexivity. Qed.

(** Without the file the endpoint throws and the page's read fails on
    the body of the server's answer. *)
Example no_file :
  fst (Api.GET idle) = Threw ENOENT ∧
  fst (Comments.getComments idle) = Threw SyntaxError.
Proof. split; reflexivity. Qed.

(** A record that is no string ends a search with a TypeError, and is
    returned as it is when there is no query. *)
Example search_on_numbers :
  let w := {| files := {[ "comments.json" := "[1]" ]}; writable := true; log := [] |} in
  fst (Search.getComments (Some "a") w) = Threw TypeError ∧
  fst (Search.getComments None w) = Returned (JArray [JNumber "1"]).
Proof. split; reflexivity. Qed.

End Checks.

(** ** The comment log: submission and reading *)

Module CommentFacts.
Import JsString JSON Js JsonFacts.

Lemma bind_run {A B} (m : Action A) (k : A → Action B) (w : World) :
  (x ← m; k x) w =
  match m w with
  | (Returned a, w') => k a w'
  | (Threw e, w') => (Threw e, w')
  | (OutOfRange, w') => (OutOfRange, w')
  end.
Proof. reflexivity. Qed.

(** The last two steps of a submission: nothing at all if the write
    fails, the write and then the signal if it succeeds. *)
Lemma persist_runs (text : string) (w : World) :
  (_ ← writeFile "comments.json" text; revalidateTag "comments") w =
  if writable w
  then (Returned (),
        {| files := <["comments.json" := text]> (files w);
           writable := writable w;
           log := log w ++ [WriteFile "comments.json" text; RevalidateTag "comments"] |})
  else (Threw EACCES, w).
Proof.
  rewrite bind_run. unfold writeFile, revalidateTag, record.
  destruct (writable w); cbn; [|reflexivity].
  now rewrite <- app_assoc.
Qed.

(** What the endpoint, the pages and the action do with a stored
    document. *)
Section Stored.
Variables (w : World) (doc : string).
Hypothesis Hdoc : files w !! "comments.json" = Some doc.

Lemma GET_run :
  Api.GET w = (Returned (new_Response doc), record (ReadFile "comments.json") w).
Proof. unfold Api.GET. rewrite bind_run. unfold readFile. now rewrite Hdoc. Qed.

Lemma fetch_run :
  Api.fetch "http://localhost:3000/api/comments" w
  = (Returned (new_Response doc), record (ReadFile "comments.json") w).
Proof.
  unfold Api.fetch. cbn [String.eqb Ascii.eqb Bool.eqb]. now rewrite GET_run.
Qed.

(** The read of the pages is [JSON.parse] of the document. *)
Lemma getComments_run :
  Comments.getComments w = JSON_parse doc (record (ReadFile "comments.json") w).
Proof. unfold Comments.getComments. now rewrite bind_run, fetch_run. Qed.

(** The read of the search page is the same, with the selection after it. *)
Lemma search_run (searchQuery : option string) :
  Search.getComments searchQuery w
  = (comments ← JSON_parse doc; settle (Search.select comments searchQuery))
      (record (ReadFile "comments.json") w).
Proof. unfold Search.getComments. now rewrite bind_run, fetch_run. Qed.

(** A submission on a stored array: what it writes. *)
Lemma submitComment_array (formData : FormData) (items : list Json) :
  parse doc = Value (JArray items) →
  Comments.submitComment formData w =
  (_ ← writeFile "comments.json"
         (stringify (JArray (items ++ [json_of (get "comment" formData)])));
   revalidateTag "comments") (record (ReadFile "comments.json") w).
Proof.
  intros Hparse. unfold Comments.submitComment.
  rewrite bind_run. unfold readFile at 1. rewrite Hdoc.
  rewrite bind_run. unfold JSON_parse at 1. rewrite Hparse.
  now rewrite bind_run.
Qed.

End Stored.

(** After the read: the write fails and nothing more happens, or the
    write and then the signal happen. *)
Lemma persist_after_read (text : string) (w : World) :
  let run := (_ ← writeFile "comments.json" text; revalidateTag "comments")
               (record (ReadFile "comments.json") w) in
  (fst run ≠ Returned () ∧ snd run = record (ReadFile "comments.json") w) ∨
  (fst run = Returned () ∧ writable w = true ∧
   files (snd run) = <["comments.json" := text]> (files w) ∧
   log (snd run) =
     log w ++ [ReadFile "comments.json"; WriteFile "comments.json" text;
               RevalidateTag "comments"]).
Proof.
  cbn zeta. rewrite persist_runs. cbn [record writable].
  destruct (writable w); cbn.
  - right. repeat split. now rewrite <- app_assoc.
  - left. split; [discriminate | reflexivity].
Qed.

(** The three ways a submission can run: it stops before it has read the
    log; it stops after reading, with nothing written; or it reads,
    writes and signals, in that order, and returns. *)
Lemma submitComment_runs (formData : FormData) (w : World) :
  let run := Comments.submitComment formData w in
  (fst run ≠ Returned () ∧ snd run = w) ∨
  (fst run ≠ Returned () ∧ snd run = record (ReadFile "comments.json") w) ∨
  (∃ text, fst run = Returned () ∧ writable w = true ∧
     files (snd run) = <["comments.json" := text]> (files w) ∧
     log (snd run) =
       log w ++ [ReadFile "comments.json"; WriteFile "comments.json" text;
                 RevalidateTag "comments"]).
Proof.
  cbn zeta. unfold Comments.submitComment.
  rewrite bind_run. unfold readFile.
  destruct (files w !! "comments.json") as [doc|];
    [|left; split; [discriminate | reflexivity]].
  right. rewrite bind_run. unfold JSON_parse.
  destruct (parse doc) as [v| |];
    [|left; split; [discriminate | reflexivity] ..].
  rewrite bind_run.
  destruct v; cbn [spread]; unfold mret, action_ret, throw;
    try (left; split; [discriminate | reflexivity]).
  - destruct (persist_after_read
                (stringify (JArray (units s ++ [json_of (get "comment" formData)]))) w)
      as [H | H]; [left; exact H | right; eexists; exact H].
  - destruct (persist_after_read
                (stringify (JArray (l ++ [json_of (get "comment" formData)]))) w)
      as [H | H]; [left; exact H | right; eexists; exact H].
Qed.

End CommentFacts.

(** ** The claims on the comment log *)

Import JsString JSON Js Scenario.

(** C1. In [submitComment] the cache signal for the tag "comments" is
    invoked only after the write of the comment log has completed, and on
    every run in which the write succeeds: among the effects of a run,
    every [RevalidateTag] is for "comments" and comes after a completed
    [WriteFile] of the document now stored, and every completed
    [WriteFile] is followed by the signal, in a run that returns. *)
Theorem submitComment_signals_after_persist (formData : FormData) (w : World) :
  let run := Comments.submitComment formData w in
  ∃ events, log (snd run) = log w ++ events ∧
    (∀ i tag, events !! i = Some (RevalidateTag tag) →
       tag = "comments" ∧
       ∃ j text, j < i ∧ events !! j = Some (WriteFile "comments.json" text) ∧
                 files (snd run) !! "comments.json" = Some text) ∧
    (∀ j path text, events !! j = Some (WriteFile path text) →
       fst run = Returned () ∧
       ∃ i, j < i ∧ events !! i = Some (RevalidateTag "comments")).
Proof.
  cbn zeta.
  destruct (CommentFacts.submitComment_runs formData w)
    as [[_ Hw] | [[_ Hw] | (text & Hret & _ & Hfiles & Hlog)]].
  - exists []. rewrite Hw, app_nil_r. repeat split; intros *; discriminate.
  - exists [ReadFile "comments.json"]. rewrite Hw. split; [reflexivity |].
    split; intros [|[|?]] *; discriminate.
  - eexists. split; [exact Hlog |]. split.
    + intros [|[|[|?]]] tag; try discriminate. intros [= <-].
      split; [reflexivity |]. exists 1, text.
      rewrite Hfiles, lookup_insert_eq. repeat split. lia.
    + intros [|[|[|?]]] path text'; try discriminate. intros [= <- <-].
      split; [exact Hret |]. exists 2. split; [lia | reflexivity].
Qed.

(** C2. For every comment log [L] in the store and every comment string
    [c], a submission of [c] followed by a read of the log yields [L]
    with [c] as its last element: the endpoint returns the document of
    [L ++ [c]] and the page's read returns [L ++ [c]]. *)
Theorem append_then_read (w : World) (doc : string) (L : list string) (c : string)
    (formData : FormData) :
  files w !! "comments.json" = Some doc →
  parse doc = Value (JArray (JString <$> L)) →
  get "comment" formData = Some (Text c) →
  writable w = true →
  let run := Comments.submitComment formData w in
  fst run = Returned () ∧
  fst (Api.GET (snd run))
    = Returned (new_Response (stringify (JArray (JString <$> L ++ [c])))) ∧
  fst (Comments.getComments (snd run)) = Returned (JArray (JString <$> L ++ [c])) ∧
  fst (Search.getComments None (snd run)) = Returned (JArray (JString <$> L ++ [c])).
Proof.
  intros Hdoc Hparse Hget Hwritable. cbn zeta.
  rewrite (CommentFacts.submitComment_array w doc Hdoc formData _ Hparse).
  rewrite CommentFacts.persist_runs, Hget. cbn [record writable json_of].
  rewrite Hwritable. cbn [fst snd].
  replace ((JString <$> L) ++ [JString c]) with (JString <$> L ++ [c])
    by now rewrite fmap_app.
  set (text := stringify (JArray (JString <$> L ++ [c]))).
  set (w' := {| files := _ |}).
  assert (Hstored : files w' !! "comments.json" = Some text)
    by apply lookup_insert_eq.
  split; [reflexivity |].
  split; [now rewrite (CommentFacts.GET_run w' text Hstored) |].
  rewrite (CommentFacts.getComments_run w' text Hstored).
  rewrite (CommentFacts.search_run w' text Hstored), CommentFacts.bind_run.
  unfold JSON_parse, text. rewrite JsonFacts.parse_stringify_strings.
  split; reflexivity.
Qed.

Lemma append_then_read_witness :
  let run := Comments.submitComment [("comment", Text "x")] two_comments in
  fst run = Returned () ∧
  fst (Api.GET (snd run))
    = Returned (new_Response (stringify (JArray [JString "a"; JString "b"; JString "x"]))) ∧
  fst (Comments.getComments (snd run))
    = Returned (JArray [JString "a"; JString "b"; JString "x"]) ∧
  fst (Search.getComments None (snd run))
    = Returned (JArray [JString "a"; JString "b"; JString "x"]).
Proof.
  apply (append_then_read two_comments
           (stringify (JArray [JString "a"; JString "b"])) ["a"; "b"] "x"
           [("comment", Text "x")]); reflexivity.
Defined.

(** C3, as the claim states it, fails: with the log readable and the
    medium read-only, the submission returns nothing, it throws the
    error of the write. *)
Lemma submitComment_write_failure_is_thrown :
  fst (Comments.submitComment [("comment", Text "hi")] read_only) = Threw EACCES ∧
  ¬ ∃ result, fst (Comments.submitComment [("comment", Text "hi")] read_only)
              = Returned result.
Proof. split; [reflexivity | intros [result H]; discriminate H]. Qed.

(** C8, as the claim states it, fails at the endpoint: on a document cut
    short, which is no JSON text, [GET] reports no error, it answers with
    status 200 and the document as it is. *)
Lemma GET_serves_malformed_document :
  parse cut_short_doc = Malformed ∧
  fst (Api.GET cut_short) = Returned {| status := 200; body := cut_short_doc |} ∧
  ¬ ∃ e, fst (Api.GET cut_short) = Threw e.
Proof. repeat split; [intros [e H]; discriminate H]. Qed.

(** C8, amended. When the stored document is no JSON text, the error is
    reported where the document is parsed, not by the endpoint: [GET]
    answers with the document as stored, and the reads of the pages
    ([response.json()]) and the read of [submitComment] ([JSON.parse])
    throw a SyntaxError; the submission then writes nothing and signals
    nothing.  No read yields an empty list or any other value. *)
Theorem malformed_document_is_reported (w : World) (doc : string) :
  files w !! "comments.json" = Some doc →
  parse doc = Malformed →
  fst (Api.GET w) = Returned (new_Response doc) ∧
  fst (Comments.getComments w) = Threw SyntaxError ∧
  (∀ searchQuery, fst (Search.getComments searchQuery w) = Threw SyntaxError) ∧
  (∀ formData,
     Comments.submitComment formData w
     = (Threw SyntaxError, record (ReadFile "comments.json") w)).
Proof.
  intros Hdoc Hparse.
  split; [now rewrite (CommentFacts.GET_run w doc Hdoc) |].
  repeat split; intros.
  - rewrite (CommentFacts.getComments_run w doc Hdoc).
    unfold JSON_parse. now rewrite Hparse.
  - rewrite (CommentFacts.search_run w doc Hdoc), CommentFacts.bind_run.
    unfold JSON_parse. now rewrite Hparse.
  - unfold Comments.submitComment. rewrite CommentFacts.bind_run.
    unfold readFile. rewrite Hdoc, CommentFacts.bind_run.
    unfold JSON_parse. now rewrite Hparse.
Qed.

Lemma malformed_document_is_reported_witness :
  fst (Api.GET cut_short) = Returned (new_Response cut_short_doc) ∧
  fst (Comments.getComments cut_short) = Threw SyntaxError ∧
  (∀ searchQuery, fst (Search.getComments searchQuery cut_short) = Threw SyntaxError) ∧
  (∀ formData,
     Comments.submitComment formData cut_short
     = (Threw SyntaxError, record (ReadFile "comments.json") cut_short)).
Proof.
  apply (malformed_document_is_reported cut_short cut_short_doc); reflexivity.
Defined.

(** ** The claims on the search filter *)

Module SearchFacts.
Import JsString JSON Js StringFacts.

(** On an array of strings, [comments.filter] is the filter of the list. *)
Lemma Array_filter_strings (q : string) (records : list string) :
  Search.Array_filter (Search.matches q) (JString <$> records)
  = Returned (JString <$> filter (contains_ci q) records).
Proof.
  induction records as [|r records IH]; [reflexivity |].
  cbn [fmap list_fmap Search.Array_filter Search.matches].
  change (list_fmap string Json JString records) with (JString <$> records).
  rewrite IH, filter_cons.
  destruct (decide (contains_ci q r)) as [H | H].
  - apply includes_spec in H. now rewrite H.
  - destruct (includes (toLowerCase r) (toLowerCase q)) eqn:E; [|reflexivity].
    apply includes_spec in E. contradiction.
Qed.

(** The read of the search page on a stored log of strings. *)
Lemma getComments_strings (w : World) (doc : string) (records : list string)
    (searchQuery : option string) :
  files w !! "comments.json" = Some doc →
  parse doc = Value (JArray (JString <$> records)) →
  Search.getComments searchQuery w
  = (Search.select (JArray (JString <$> records)) searchQuery,
     record (ReadFile "comments.json") w).
Proof.
  intros Hdoc Hparse.
  rewrite (CommentFacts.search_run w doc Hdoc), CommentFacts.bind_run.
  unfold JSON_parse. now rewrite Hparse.
Qed.

End SearchFacts.

(** C7. For every stored sequence of records and every query: an empty
    or absent query returns all the records in their order; any other
    query returns exactly the records whose lower-cased value contains the
    lower-cased query as a substring, in their order.  In particular the
    query hel on the records Hello, world, Help returns Hello, Help. *)
Theorem getComments_filters (w : World) (doc : string) (records : list string)
    (searchQuery : option string) :
  files w !! "comments.json" = Some doc →
  parse doc = Value (JArray (JString <$> records)) →
  (∃ result,
     fst (Search.getComments searchQuery w) = Returned (JArray (JString <$> result)) ∧
     match searchQuery with
     | None => result = records
     | Some q =>
         if decide (q = "") then result = records
         else result = filter (contains_ci q) records
     end) ∧
  fst (Search.getComments (Some "hel") hello_world_help)
  = Returned (JArray [JString "Hello"; JString "Help"]).
Proof.
  intros Hdoc Hparse. split; [|reflexivity].
  rewrite (SearchFacts.getComments_strings w doc records searchQuery Hdoc Hparse).
  cbn [fst]. destruct searchQuery as [q|]; [|now exists records].
  destruct (decide (q = "")) as [-> | Hq]; [now exists records |].
  exists (filter (contains_ci q) records). split; [|reflexivity].
  unfold Search.select, Search.falsy.
  destruct (String.eqb_spec q ""); [contradiction |].
  unfold Search.filter_comments.
  now rewrite SearchFacts.Array_filter_strings.
Qed.

Lemma getComments_filters_witness :
  ∃ result,
    fst (Search.getComments (Some "hel") hello_world_help)
    = Returned (JArray (JString <$> result)) ∧
    result = filter (contains_ci "hel") ["Hello"; "world"; "Help"].
Proof.
  destruct (getComments_filters hello_world_help
              (stringify (JArray [JString "Hello"; JString "world"; JString "Help"]))
              ["Hello"; "world"; "Help"] (Some "hel") eq_refl eq_refl)
    as [[result H] _].
  exists result. exact H.
Defined.

(** C9. For every stored sequence of records, the filter with the empty
    query returns the records unchanged, a second application returns
    the same again, and the result is that of the filter with no query. *)
Theorem getComments_empty_query (w : World) (doc : string) (records : list string) :
  files w !! "comments.json" = Some doc →
  parse doc = Value (JArray (JString <$> records)) →
  let once := Search.getComments (Some "") w in
  fst once = Returned (JArray (JString <$> records)) ∧
  fst (Search.getComments (Some "") (snd once)) = fst once ∧
  fst (Search.getComments None w) = fst once ∧
  Search.select (JArray (JString <$> records)) (Some "")
    = Returned (JArray (JString <$> records)) ∧
  (∀ result, Search.select (JArray (JString <$> records)) (Some "") = Returned result →
             Search.select result (Some "") = Returned result) ∧
  Search.select (JArray (JString <$> records)) None
    = Search.select (JArray (JString <$> records)) (Some "").
Proof.
  intros Hdoc Hparse. cbn zeta.
  rewrite !(SearchFacts.getComments_strings w doc records _ Hdoc Hparse).
  cbn [fst snd].
  rewrite (SearchFacts.getComments_strings (record (ReadFile "comments.json") w)
             doc records _ Hdoc Hparse).
  repeat split.
Qed.

Lemma getComments_empty_query_witness :
  fst (Search.getComments (Some "") hello_world_help)
  = Returned (JArray [JString "Hello"; JString "world"; JString "Help"]).
Proof.
  apply (getComments_empty_query hello_world_help
           (stringify (JArray [JString "Hello"; JString "world"; JString "Help"]))
           ["Hello"; "world"; "Help"] eq_refl eq_refl).
Defined.

(** ** The claim on the optimistic overlay *)

(** C6. The overlay of a pending value [v] on a base state [b] is
    [b ++ [v]] (on the base a, b and the pending value x it is a, b, x),
    and pending values submitted one after the other lie on the base in
    the order of their submission, each new one at the end of the overlay
    it was added to. *)
Theorem optimistic_overlay_appends (base pending : list string) (v : string) :
  Optimistic.reducer base v = base ++ [v] ∧
  Optimistic.reducer ["a"; "b"] "x" = ["a"; "b"; "x"] ∧
  Optimistic.optimisticComments base pending = base ++ pending ∧
  Optimistic.optimisticComments base (pending ++ [v])
  = Optimistic.reducer (Optimistic.optimisticComments base pending) v.
Proof.
  assert (H : ∀ queue b, Optimistic.optimisticComments b queue = b ++ queue).
  { unfold Optimistic.optimisticComments, Optimistic.useOptimistic.
    induction queue as [|x queue IH]; intros b; cbn [fold_left].
    - now rewrite app_nil_r.
    - rewrite IH. unfold Optimistic.reducer. now rewrite <- app_assoc. }
  repeat split; [apply H |].
  rewrite !H. unfold Optimistic.reducer. now rewrite app_assoc.
Qed.

(** ** The claims on the feedback action *)

Module FeedbackFacts.
Import JsString JSON Js Zod Feedback.

Lemma formValues_name (formData : FormData) :
  formValues_of formData !! "name" = Some (get "name" formData).
Proof. reflexivity. Qed.

Lemma formValues_email (formData : FormData) :
  formValues_of formData !! "email" = Some (get "email" formData).
Proof. reflexivity. Qed.

Lemma formValues_feedback (formData : FormData) :
  formValues_of formData !! "feedback" = Some (get "feedback" formData).
Proof. reflexivity. Qed.

(** The issues of a submission: those of the name, of the email and of
    the feedback, in that order. *)
Lemma parse_object_feedback (formData : FormData) :
  parse_object feedbackSchema (formValues_of formData)
  = (at_key "name" <$> parse_string [min 2; max 100] (Some (get "name" formData)))
    ++ (at_key "email" <$> parse_string [email] (Some (get "email" formData)))
    ++ (at_key "feedback" <$> parse_string [min 10; max 1000] (Some (get "feedback" formData))).
Proof.
  unfold parse_object, feedbackSchema. cbn [map concat].
  rewrite formValues_name, formValues_email, formValues_feedback.
  now rewrite app_nil_r.
Qed.

(** The action never reaches [error.flatten()] without an error. *)
Lemma submitFeedback_run {Prev} (prev : Prev) (formData : FormData) (w : World) :
  submitFeedback prev formData w =
  match parse_object feedbackSchema (formValues_of formData) with
  | [] =>
      (Returned (Success true),
       record (ConsoleLog (JObject (map (λ kv, (fst kv, JString (snd kv)))
                                        (output feedbackSchema (formValues_of formData))))) w)
  | issues =>
      (Returned (ErrorsValues (fieldErrors (ZodError_flatten issues))
                              (formValues_of formData)), w)
  end.
Proof.
  unfold submitFeedback, safeParse.
  destruct (parse_object feedbackSchema (formValues_of formData)); reflexivity.
Qed.

End FeedbackFacts.

Import Zod Feedback.

(** C4. For every submission whose name has 2 to 100 characters, whose
    email the format test accepts and whose feedback has 10 to 1000
    characters, the validation raises no issue and the action returns the
    success variant. *)
Theorem valid_feedback_succeeds {Prev} (prev : Prev) (formData : FormData) (w : World)
    (name email feedback : string) :
  get "name" formData = Some (Text name) →
  get "email" formData = Some (Text email) →
  get "feedback" formData = Some (Text feedback) →
  2 ≤ String.length name ≤ 100 →
  emailRegex_test email = true →
  10 ≤ String.length feedback ≤ 1000 →
  parse_object feedbackSchema (formValues_of formData) = [] ∧
  fst (submitFeedback prev formData w) = Returned (Success true).
Proof.
  intros Hname Hemail Hfeedback [Hn2 Hn100] Hformat [Hf10 Hf1000].
  assert (Hnone : parse_object feedbackSchema (formValues_of formData) = []).
  { rewrite FeedbackFacts.parse_object_feedback, Hname, Hemail, Hfeedback.
    unfold parse_string, run_check. cbn [map concat]. rewrite Hformat.
    rewrite (proj2 (Nat.ltb_ge (String.length name) 2)) by lia.
    rewrite (proj2 (Nat.ltb_ge 100 (String.length name))) by lia.
    rewrite (proj2 (Nat.ltb_ge (String.length feedback) 10)) by lia.
    rewrite (proj2 (Nat.ltb_ge 1000 (String.length feedback))) by lia.
    reflexivity. }
  split; [exact Hnone |].
  now rewrite FeedbackFacts.submitFeedback_run, Hnone.
Qed.

Lemma valid_feedback_succeeds_witness :
  parse_object feedbackSchema (formValues_of good_feedback) = [] ∧
  fst (submitFeedback () good_feedback idle) = Returned (Success true).
Proof.
  apply (valid_feedback_succeeds () good_feedback idle
           "Al" "al@example.com" "long enough");
    first [reflexivity | cbn; lia].
Defined.

(** C5. Whenever the validation fails, the returned values are the
    submitted field values as they came; and the submission of the name
    A, the email bad and the feedback short fails with an error for
    each of the three fields: the name too short, the email malformed, the
    feedback too short. *)
Theorem invalid_feedback_echoes_values {Prev} (prev : Prev) (formData : FormData)
    (w : World) (errors : gmap string (list string)) (values : gmap string FormValue) :
  fst (submitFeedback prev formData w) = Returned (ErrorsValues errors values) →
  (values !! "name" = Some (get "name" formData) ∧
   values !! "email" = Some (get "email" formData) ∧
   values !! "feedback" = Some (get "feedback" formData) ∧
   dom values = {[ "name"; "email"; "feedback" ]}) ∧
  fst (submitFeedback prev short_feedback w)
  = Returned
      (ErrorsValues
         (<["name" := ["String must contain at least 2 character(s)"]]>
            (<["email" := ["Invalid email"]]>
               {[ "feedback" := ["String must contain at least 10 character(s)"] ]}))
         (<["name" := Some (Text "A")]>
            (<["email" := Some (Text "bad")]>
               {[ "feedback" := Some (Text "short") ]}))).
Proof.
  intros H. split; [|now rewrite FeedbackFacts.submitFeedback_run].
  rewrite FeedbackFacts.submitFeedback_run in H.
  destruct (parse_object feedbackSchema (formValues_of formData));
    [discriminate H |].
  injection H as _ <-. repeat split.
Qed.

Lemma invalid_feedback_echoes_values_witness :
  ∃ errors values,
    fst (submitFeedback () short_feedback idle) = Returned (ErrorsValues errors values) ∧
    values !! "name" = Some (Some (Text "A")) ∧
    values !! "email" = Some (Some (Text "bad")) ∧
    values !! "feedback" = Some (Some (Text "short")).
Proof.
  eexists _, _. split; [reflexivity |].
  destruct (invalid_feedback_echoes_values () short_feedback idle _ _ eq_refl)
    as [(Hname & Hemail & Hfeedback & _) _].
  exact (conj Hname (conj Hemail Hfeedback)).
Defined.

(** C10. For every raw submission, with any or all of the name, the
    email and the feedback absent, the action ends normally with one of
    its two results, [{ errors, values }] or [{ success: true }]; it never
    throws.  A submission with no field at all is answered with an error
    for each field. *)
Theorem submitFeedback_returns {Prev} (prev : Prev) (formData : FormData) (w : World) :
  (∃ state,
     fst (submitFeedback prev formData w) = Returned state ∧
     (state = Success true ∨
      ∃ errors, state = ErrorsValues errors (formValues_of formData))) ∧
  fst (submitFeedback prev [] w)
  = Returned
      (ErrorsValues
         (<["name" := ["Expected string, received null"]]>
            (<["email" := ["Expected string, received null"]]>
               {[ "feedback" := ["Expected string, received null"] ]}))
         (<["name" := None]> (<["email" := None]> {[ "feedback" := None ]}))).
Proof.
  split; [|now rewrite FeedbackFacts.submitFeedback_run].
  rewrite FeedbackFacts.submitFeedback_run.
  destruct (parse_object feedbackSchema (formValues_of formData)); eauto.
Qed.

(** ** The claim on a write that fails *)

Module FaultFacts.
Import JSON Js Faults.

(** With the [writeFile] of the runtime the action is the action. *)
Lemma submitComment_on_writeFile (formData : FormData) :
  submitComment_on writeFile formData = Comments.submitComment formData.
Proof. reflexivity. Qed.

(** On a medium that takes no writes, [writeFile] is the write refused
    at the open. *)
Lemma writeFile_refused (path text : string) (w : World) :
  writable w = false →
  writeFile path text w = failing_writeFile (AtOpen EACCES) path text w.
Proof. intros Hw. unfold writeFile. now rewrite Hw. Qed.

(** A submission on a stored array, up to its write. *)
Lemma submitComment_on_array (writeFile : string → string → Action unit)
    (formData : FormData) (w : World) (doc : string) (items : list Json) :
  files w !! "comments.json" = Some doc →
  parse doc = Value (JArray items) →
  submitComment_on writeFile formData w =
  (_ ← writeFile "comments.json"
         (stringify (JArray (items ++ [json_of (get "comment" formData)])));
   revalidateTag "comments") (record (ReadFile "comments.json") w).
Proof.
  intros Hdoc Hparse. unfold submitComment_on.
  rewrite CommentFacts.bind_run. unfold readFile at 1. rewrite Hdoc.
  rewrite CommentFacts.bind_run. unfold JSON_parse at 1. rewrite Hparse.
  now rewrite CommentFacts.bind_run.
Qed.

(** A write that fails throws its error and completes no effect; the
    file is as it was or holds the text in part, from its start. *)
Lemma failing_writeFile_run (fault : Fault) (path text : string) (w : World) :
  let run := failing_writeFile fault path text w in
  ∃ e, fst run = Threw e ∧
       log (snd run) = log w ∧
       (files (snd run) = files w ∨
        ∃ written, files (snd run)
                   = <[path := String.substring 0 written text]> (files w)).
Proof.
  destruct fault as [e | e written]; exists e; cbn;
    (split; [reflexivity |]); (split; [reflexivity |]);
    [left; reflexivity | right; exists written; reflexivity].
Qed.

End FaultFacts.

(** C3, amended. When the stored log is a list of comments and its write
    fails, in whatever way and with whatever error, the submission
    returns no result: it throws the error of the write to its caller,
    and the world is as the failed write left it, so nothing runs after
    the write.  The feedback action never ends so: a validation failure
    is a returned [ErrorsValues], which an exception cannot be taken
    for.  The [writeFile] is any function of the path, the text and the
    world; with that of the runtime the action is [submitComment]. *)
Theorem failed_write_is_thrown (writeFile : string → string → Action unit)
    (formData : FormData) (w w' : World) (doc : string) (L : list string) (e : Error) :
  files w !! "comments.json" = Some doc →
  parse doc = Value (JArray (JString <$> L)) →
  writeFile "comments.json"
            (stringify (JArray ((JString <$> L) ++ [json_of (get "comment" formData)])))
            (record (ReadFile "comments.json") w)
  = (Threw e, w') →
  let run := Faults.submitComment_on writeFile formData w in
  fst run = Threw e ∧
  (¬ ∃ result, fst run = Returned result) ∧
  snd run = w' ∧
  (∀ Prev (prev : Prev) submission w0,
     ∃ state, fst (submitFeedback prev submission w0) = Returned state) ∧
  Faults.submitComment_on Js.writeFile formData = Comments.submitComment formData.
Proof.
  intros Hdoc Hparse Hwrite. cbn zeta.
  rewrite (FaultFacts.submitComment_on_array writeFile formData w doc _ Hdoc Hparse).
  rewrite CommentFacts.bind_run, Hwrite. cbn [fst snd].
  split; [reflexivity |].
  split; [intros [result H]; discriminate H |].
  split; [reflexivity |].
  split; [|reflexivity].
  intros Prev prev submission w0. rewrite FeedbackFacts.submitFeedback_run.
  destruct (parse_object feedbackSchema (formValues_of submission)); eauto.
Qed.

(** The write of the third comment runs out of space after the open: the
    error is thrown, the log is left empty and no signal is given. *)
Lemma failed_write_is_thrown_witness :
  let run := Faults.submitComment_on (Faults.failing_writeFile (Faults.AfterOpen ENOSPC 0))
               [("comment", Text "hi")] two_comments in
  fst run = Threw ENOSPC ∧
  (¬ ∃ result, fst run = Returned result) ∧
  snd run = {| files := {[ "comments.json" := "" ]}; writable := true;
               log := [ReadFile "comments.json"] |} ∧
  (∀ Prev (prev : Prev) submission w0,
     ∃ state, fst (submitFeedback prev submission w0) = Returned state) ∧
  Faults.submitComment_on Js.writeFile [("comment", Text "hi")]
  = Comments.submitComment [("comment", Text "hi")].
Proof.
  apply (failed_write_is_thrown (Faults.failing_writeFile (Faults.AfterOpen ENOSPC 0))
           [("comment", Text "hi")] two_comments _
           (stringify (JArray [JString "a"; JString "b"])) ["a"; "b"] ENOSPC);
    reflexivity.
Defined.

(** * Further properties *)

(** ** JSON: the values a submission stores *)

Module EntryFacts.
Import JsString JSON Js StringFacts JsonFacts CommentsForm.

Lemma text_length (v : FormValue) : 2 ≤ String.length (text v).
Proof.
  destruct v as [[s | name] |]; [apply length_quote | cbn; lia | cbn; lia].
Qed.

Lemma parse_value_text (fuel : nat) (v : FormValue) (rest : string) :
  parse_value (S fuel) (text v +:+ rest) = POk (json_of v) rest.
Proof.
  destruct v as [[s | name] |]; [apply parse_value_quote | reflexivity | reflexivity].
Qed.

Lemma narrow_text (v : FormValue) (t : string) : narrow (text v +:+ t) = narrow t.
Proof.
  destruct v as [[s | name] |]; [apply narrow_quote | reflexivity | reflexivity].
Qed.

Lemma expect_close_text (v : FormValue) (t : string) :
  expect "]" (text v +:+ t) = None.
Proof. destruct v as [[s | name] |]; reflexivity. Qed.

Lemma join_cons (x : string) (y : string) (l : list string) :
  join "," (x :: y :: l) = x +:+ "," +:+ join "," (y :: l).
Proof. reflexivity. Qed.

Lemma length_join_text (l : list FormValue) :
  2 * length l ≤ String.length (join "," (text <$> l)).
Proof.
  induction l as [|x [|y l] IH]; [cbn; lia | |].
  - cbn [fmap list_fmap join length]. pose proof (text_length x). lia.
  - cbn [fmap list_fmap] in *. rewrite join_cons, !length_append.
    pose proof (text_length x). cbn [length] in *. lia.
Qed.

Lemma stringify_entries (l : list FormValue) :
  stringify (JArray (json_of <$> l)) = "[" +:+ join "," (text <$> l) +:+ "]".
Proof.
  cbn [stringify]. do 3 f_equal.
  induction l as [|x l IH]; [reflexivity |]. cbn [fmap list_fmap map] in *.
  now rewrite IH.
Qed.

Lemma parse_elements_entries (l : list FormValue) :
  ∀ (fuel : nat) (x : FormValue) (acc : list Json) (rest : string),
    length l + 1 < fuel →
    parse_elements fuel (join "," (text <$> x :: l) +:+ String "]" rest) acc
    = POk (JArray (rev acc ++ (json_of <$> x :: l))) rest.
Proof.
  induction l as [|y l IH]; intros fuel x acc rest Hfuel.
  - destruct fuel as [|[|fuel]]; [cbn in Hfuel; lia ..|].
    cbn [join fmap list_fmap].
    now rewrite (parse_elements_last _ _ rest (json_of x)) by apply parse_value_text.
  - destruct fuel as [|[|fuel]]; [cbn in Hfuel; lia ..|].
    cbn [fmap list_fmap] in *. rewrite join_cons, !append_assoc.
    rewrite (parse_elements_next _ _ (join "," (text y :: list_fmap _ _ text l)
                                        +:+ String "]" rest) (json_of x))
      by apply parse_value_text.
    rewrite IH by (cbn in *; lia).
    cbn [rev]. now rewrite <- app_assoc.
Qed.

Lemma parse_value_array (fuel : nat) (r : string) :
  expect "]" r = None →
  parse_value (S fuel) (String "[" r) = parse_elements fuel r [].
Proof. intros H. cbn. now rewrite H. Qed.

Lemma expect_close_join (x : FormValue) (l : list FormValue) (t : string) :
  expect "]" (join "," (text <$> x :: l) +:+ t) = None.
Proof.
  destruct l as [|y l]; cbn [fmap list_fmap].
  - apply expect_close_text.
  - rewrite join_cons, append_assoc. apply expect_close_text.
Qed.

Lemma narrow_entries (l : list FormValue) (t : string) :
  narrow (join "," (text <$> l) +:+ t) = narrow t.
Proof.
  induction l as [|x [|y l] IH]; [reflexivity | |].
  - cbn [join fmap list_fmap]. apply narrow_text.
  - cbn [fmap list_fmap] in *. rewrite join_cons, !append_assoc, narrow_text.
    exact IH.
Qed.

(** What a submission writes is read back as it was written, whatever
    the submitted values were. *)
Lemma parse_stringify_entries (l : list FormValue) :
  parse (stringify (JArray (json_of <$> l))) = Value (JArray (json_of <$> l)).
Proof.
  rewrite stringify_entries. unfold parse, parse_document, fuel_for.
  assert (Hv : parse_value (S (2 * String.length ("[" +:+ join "," (text <$> l) +:+ "]")))
                 ("[" +:+ join "," (text <$> l) +:+ "]")
               = POk (JArray (json_of <$> l)) "").
  { destruct l as [|x l]; [reflexivity |].
    cbn [String.append].
    rewrite parse_value_array by apply expect_close_join.
    rewrite parse_elements_entries; [reflexivity |].
    pose proof (length_join_text (x :: l)).
    cbn [String.length]. rewrite length_append. cbn [length] in *. lia. }
  rewrite Hv.
  change (narrow ("[" +:+ join "," (text <$> l) +:+ "]"))
    with (narrow (join "," (text <$> l) +:+ "]")).
  now rewrite narrow_entries.
Qed.

Lemma strings_as_entries (L : list string) :
  JString <$> L = json_of <$> ((λ s, Some (Text s)) <$> L).
Proof. now rewrite <- list_fmap_compose. Qed.

End EntryFacts.

(** ** The comment log, further *)

Module LogFacts.
Import JsString JSON Js CommentsForm CommentFacts EntryFacts.

(** One submission on a stored log, on a medium that takes writes. *)
Lemma submit_stored (w : World) (doc : string) (vs : list FormValue)
    (formData : FormData) :
  files w !! "comments.json" = Some doc →
  parse doc = Value (JArray (json_of <$> vs)) →
  writable w = true →
  let written := stringify (JArray (json_of <$> vs ++ [get "comment" formData])) in
  Comments.submitComment formData w
  = (Returned (),
     {| files := <["comments.json" := written]> (files w);
        writable := true;
        log := log w ++ [ReadFile "comments.json"; WriteFile "comments.json" written;
                         RevalidateTag "comments"] |}).
Proof.
  intros Hdoc Hparse Hwritable. cbn zeta.
  rewrite (submitComment_array w doc Hdoc formData _ Hparse), persist_runs.
  cbn [record writable files log]. rewrite Hwritable.
  rewrite fmap_app. cbn [fmap list_fmap]. now rewrite <- app_assoc.
Qed.

Lemma signals_app (a b : list Event) : signals (a ++ b) = signals a + signals b.
Proof. unfold signals. now rewrite List.filter_app, length_app. Qed.

(** Whatever a submission does, the other files stay and the medium is
    as writable as before. *)
Lemma submitComment_frame (formData : FormData) (w : World) :
  let w' := snd (Comments.submitComment formData w) in
  writable w' = writable w ∧
  ∀ path, path ≠ "comments.json" → files w' !! path = files w !! path.
Proof.
  cbn zeta. split.
  - unfold Comments.submitComment. rewrite bind_run. unfold readFile.
    destruct (files w !! "comments.json"); [|reflexivity].
    rewrite bind_run. unfold JSON_parse. destruct (parse s); try reflexivity.
    rewrite bind_run.
    destruct v; cbn [spread]; unfold mret, action_ret, throw; try reflexivity;
      rewrite persist_runs; cbn [record writable];
      destruct (writable w) eqn:E; cbn; auto.
  - intros path Hpath.
    destruct (submitComment_runs formData w)
      as [[_ ->] | [[_ ->] | (written & _ & _ & -> & _)]]; try reflexivity.
    now apply lookup_insert_ne.
Qed.

End LogFacts.

Import CommentsForm.

(** X1. Without the file there is no comment board: the endpoint and
    every submission throw ENOENT and change nothing, so no sequence of
    submissions ever creates the file. *)
Theorem no_file_no_board (forms : list FormData) (w : World) :
  files w !! "comments.json" = None →
  Api.GET w = (Threw ENOENT, w) ∧
  (∀ formData, Comments.submitComment formData w = (Threw ENOENT, w)) ∧
  after_submissions forms w = w.
Proof.
  intros Hnone.
  assert (Hsubmit : ∀ formData, Comments.submitComment formData w = (Threw ENOENT, w)).
  { intros formData. unfold Comments.submitComment.
    rewrite CommentFacts.bind_run. unfold readFile. now rewrite Hnone. }
  split; [|split; [exact Hsubmit |]].
  - unfold Api.GET. rewrite CommentFacts.bind_run. unfold readFile. now rewrite Hnone.
  - unfold after_submissions. induction forms as [|formData forms IH]; [reflexivity |].
    cbn [fold_left]. unfold after_submission at 2. now rewrite Hsubmit.
Qed.

Lemma no_file_no_board_witness :
  Api.GET idle = (Threw ENOENT, idle) ∧
  (∀ formData, Comments.submitComment formData idle = (Threw ENOENT, idle)) ∧
  after_submissions [[("comment", Text "a")]; [("comment", Text "b")]] idle = idle.
Proof. apply (no_file_no_board _ idle). reflexivity. Defined.

(** X2. When the stored document is a JSON value that cannot be
    spread (null, a boolean, a number or an object), a submission throws
    a TypeError after the read: nothing is written and the signal is not
    invoked. *)
Theorem not_iterable_document (w : World) (doc : string) (v : Json)
    (formData : FormData) :
  files w !! "comments.json" = Some doc →
  parse doc = Value v →
  (∀ l, v ≠ JArray l) →
  (∀ s, v ≠ JString s) →
  Comments.submitComment formData w
  = (Threw TypeError, record (ReadFile "comments.json") w).
Proof.
  intros Hdoc Hparse Harray Hstring. unfold Comments.submitComment.
  rewrite CommentFacts.bind_run. unfold readFile. rewrite Hdoc.
  rewrite CommentFacts.bind_run. unfold JSON_parse. rewrite Hparse.
  rewrite CommentFacts.bind_run.
  destruct v; try reflexivity; [now destruct (Hstring s) | now destruct (Harray l)].
Qed.

Lemma not_iterable_document_witness :
  let w := {| files := {[ "comments.json" := "{}" ]}; writable := true; log := [] |} in
  Comments.submitComment [("comment", Text "x")] w
  = (Threw TypeError, record (ReadFile "comments.json") w).
Proof.
  apply (not_iterable_document _ "{}" (JObject [])); [reflexivity .. | |];
    intros; discriminate.
Defined.

(** X3. Submissions touch one file: whatever is submitted, and however
    often, every other file keeps its content and the medium stays as
    writable as it was. *)
Theorem submissions_touch_one_file (forms : list FormData) (w : World) (path : string) :
  path ≠ "comments.json" →
  files (after_submissions forms w) !! path = files w !! path ∧
  writable (after_submissions forms w) = writable w.
Proof.
  intros Hpath. unfold after_submissions. revert w.
  induction forms as [|formData forms IH]; intros w; [split; reflexivity |].
  cbn [fold_left]. destruct (IH (after_submission w formData)) as [-> ->].
  destruct (LogFacts.submitComment_frame formData w) as [Hw Hfiles].
  split; [now apply Hfiles | exact Hw].
Qed.

Lemma submissions_touch_one_file_witness :
  let w := {| files := <["notes.txt" := "keep"]> (files two_comments);
              writable := true; log := [] |} in
  files (after_submissions [[("comment", Text "x")]; []] w) !! "notes.txt" = Some "keep" ∧
  writable (after_submissions [[("comment", Text "x")]; []] w) = true.
Proof.
  assert (Hpath : "notes.txt" ≠ "comments.json") by discriminate.
  exact (submissions_touch_one_file
           [[("comment", Text "x")]; []]
           {| files := <["notes.txt" := "keep"]> (files two_comments);
              writable := true; log := [] |} "notes.txt" Hpath).
Defined.

(** X4. Reading never changes the store: the endpoint and the reads of
    the pages leave every file as it is, write nothing and invoke no
    signal; all they add to the effects is at most the one read. *)
Theorem reads_change_nothing (w : World) (searchQuery : option string) :
  only_read w (snd (Api.GET w)) ∧
  only_read w (snd (Comments.getComments w)) ∧
  only_read w (snd (Search.getComments searchQuery w)).
Proof.
  unfold only_read, Comments.getComments, Search.getComments, Api.fetch, Api.GET.
  cbn [String.eqb Ascii.eqb Bool.eqb]. rewrite !CommentFacts.bind_run.
  unfold readFile, Response_json, JSON_parse, settle, mret, action_ret.
  destruct (files w !! "comments.json") as [doc|]; cbn [body new_Response].
  - rewrite CommentFacts.bind_run. destruct (parse doc); cbn; auto 10.
  - rewrite CommentFacts.bind_run. cbn. auto 10.
Qed.

(** X5. The log is append-only over any sequence of submissions: on a
    stored log and a medium that takes writes, the submissions add their
    values at the end, in the order they were made and whatever the
    values are (a string, a File, or null for an absent field); each one
    invokes the signal once. *)
Theorem submissions_append_in_order (forms : list FormData) (w : World)
    (doc : string) (vs : list FormValue) :
  files w !! "comments.json" = Some doc →
  parse doc = Value (JArray (json_of <$> vs)) →
  writable w = true →
  let w' := after_submissions forms w in
  let stored := vs ++ (get "comment" <$> forms) in
  (∃ doc', files w' !! "comments.json" = Some doc' ∧
           parse doc' = Value (JArray (json_of <$> stored))) ∧
  fst (Comments.getComments w') = Returned (JArray (json_of <$> stored)) ∧
  signals (log w') = signals (log w) + length forms.
Proof.
  cbn zeta. unfold after_submissions. revert w doc vs.
  induction forms as [|formData forms IH]; intros w doc vs Hdoc Hparse Hwritable.
  - cbn [fold_left fmap list_fmap length]. rewrite app_nil_r.
    split; [eauto |]. split; [|lia].
    rewrite (CommentFacts.getComments_run w doc Hdoc). unfold JSON_parse.
    now rewrite Hparse.
  - cbn [fold_left fmap list_fmap length]. unfold after_submission at 2 4 6.
    rewrite (LogFacts.submit_stored w doc vs formData Hdoc Hparse Hwritable).
    cbn [snd].
    set (written := stringify (JArray (json_of <$> vs ++ [get "comment" formData]))).
    set (w1 := {| files := _ |}).
    destruct (IH w1 written (vs ++ [get "comment" formData])) as (Hstored & Hread & Hsignals).
    + apply lookup_insert_eq.
    + apply EntryFacts.parse_stringify_entries.
    + reflexivity.
    + rewrite <- !app_assoc in *. cbn [app] in *.
      split; [exact Hstored |]. split; [exact Hread |].
      rewrite Hsignals. unfold w1. cbn [log].
      rewrite LogFacts.signals_app. cbn. lia.
Qed.

Lemma submissions_append_in_order_witness :
  let w' := after_submissions [[("comment", Text "x")]; []; [("comment", File "f")]]
              two_comments in
  fst (Comments.getComments w')
  = Returned (JArray [JString "a"; JString "b"; JString "x"; JNull; JObject []]) ∧
  signals (log w') = 3.
Proof.
  destruct (submissions_append_in_order
              [[("comment", Text "x")]; []; [("comment", File "f")]] two_comments
              (stringify (JArray [JString "a"; JString "b"]))
              [Some (Text "a"); Some (Text "b")] eq_refl eq_refl eq_refl)
    as (_ & Hread & Hsignals).
  exact (conj Hread Hsignals).
Defined.

(** X6. On a medium that takes no writes the store never changes: after
    any sequence of submissions every file is as it was and the signal
    has not been invoked. *)
Theorem read_only_store_is_kept (forms : list FormData) (w : World) :
  writable w = false →
  files (after_submissions forms w) = files w ∧
  signals (log (after_submissions forms w)) = signals (log w).
Proof.
  unfold after_submissions. revert w.
  induction forms as [|formData forms IH]; intros w Hwritable; [split; reflexivity |].
  cbn [fold_left]. unfold after_submission at 2 4.
  destruct (LogFacts.submitComment_frame formData w) as [Hw _].
  destruct (IH (snd (Comments.submitComment formData w))) as [-> ->];
    [now rewrite Hw |].
  destruct (CommentFacts.submitComment_runs formData w)
    as [[_ ->] | [[_ ->] | (written & _ & Htrue & _)]].
  - split; reflexivity.
  - split; [reflexivity |]. cbn [record log].
    rewrite LogFacts.signals_app. cbn. lia.
  - congruence.
Qed.

Lemma read_only_store_is_kept_witness :
  files (after_submissions [[("comment", Text "x")]; []] read_only) = files read_only ∧
  signals (log (after_submissions [[("comment", Text "x")]; []] read_only)) = 0.
Proof.
  exact (read_only_store_is_kept [[("comment", Text "x")]; []] read_only eq_refl).
Defined.

(** ** The search, further *)

Module SearchMore.
Import JsString JSON Js StringFacts CommentsForm.

(** The read of the search page is the read of the comments page, with
    the selection on what it returned. *)
Lemma search_after_read (searchQuery : option string) (w : World) :
  Search.getComments searchQuery w =
  match Comments.getComments w with
  | (Returned comments, w') => (Search.select comments searchQuery, w')
  | (Threw e, w') => (Threw e, w')
  | (OutOfRange, w') => (OutOfRange, w')
  end.
Proof.
  unfold Search.getComments, Comments.getComments.
  rewrite !CommentFacts.bind_run.
  now destruct (Api.fetch _ w) as [[response | e |] w'].
Qed.

Lemma search_stored (w : World) (doc : string) (v : Json) (searchQuery : option string) :
  files w !! "comments.json" = Some doc →
  parse doc = Value v →
  Search.getComments searchQuery w
  = (Search.select v searchQuery, record (ReadFile "comments.json") w).
Proof.
  intros Hdoc Hparse.
  rewrite (CommentFacts.search_run w doc Hdoc), CommentFacts.bind_run.
  unfold JSON_parse. now rewrite Hparse.
Qed.

Lemma select_query (comments : Json) (q : string) :
  q ≠ "" → Search.select comments (Some q) = Search.filter_comments comments q.
Proof.
  intros Hq. unfold Search.select, Search.falsy.
  now destruct (String.eqb_spec q "").
Qed.

Lemma toLowerCase_empty (q : string) : toLowerCase q = "" ↔ q = "".
Proof. destruct q; cbn; split; intros H; (discriminate || reflexivity). Qed.

Lemma Array_filter_ext (f g : Json → Outcome bool) (l : list Json) :
  (∀ x, f x = g x) → Search.Array_filter f l = Search.Array_filter g l.
Proof.
  intros H. induction l as [|x l IH]; [reflexivity |].
  cbn [Search.Array_filter]. now rewrite H, IH.
Qed.

(** What was kept is kept again. *)
Lemma Array_filter_kept (f : Json → Outcome bool) (l : list Json) :
  ∀ kept, Search.Array_filter f l = Returned kept →
          Search.Array_filter f kept = Returned kept.
Proof.
  induction l as [|x l IH]; intros kept; cbn [Search.Array_filter].
  - now intros [= <-].
  - destruct (f x) as [keep | e |] eqn:Hx; try discriminate.
    destruct (Search.Array_filter f l) as [kept' | e |]; try discriminate.
    intros [= <-]. destruct keep; [|now apply IH].
    cbn [Search.Array_filter]. now rewrite Hx, (IH kept').
Qed.

(** One element that is no string ends the filter with a TypeError. *)
Lemma Array_filter_throws (q : string) (l : list Json) :
  Exists (λ item, is_string item = false) l →
  Search.Array_filter (Search.matches q) l = Threw TypeError.
Proof.
  induction 1 as [x l Hx | x l _ IH]; cbn [Search.Array_filter].
  - now destruct x.
  - rewrite IH. now destruct x.
Qed.

Lemma Array_filter_returns (q : string) (l : list Json) :
  Forall (λ item, is_string item = true) l →
  ∃ kept, Search.Array_filter (Search.matches q) l = Returned kept.
Proof.
  induction 1 as [|x l Hx _ [kept IH]]; cbn [Search.Array_filter]; [eauto |].
  rewrite IH. destruct x; try discriminate. cbn. eauto.
Qed.

Lemma is_substring_refl (s : string) : is_substring s s.
Proof. exists "", "". cbn. now rewrite append_empty. Qed.

Lemma is_substring_trans (a b c : string) :
  is_substring a b → is_substring b c → is_substring a c.
Proof.
  intros (pre & post & ->) (pre' & post' & ->).
  exists (pre' +:+ pre), (post +:+ post'). now rewrite !append_assoc.
Qed.

Lemma is_substring_empty (a : string) : is_substring a "" → a = "".
Proof.
  intros ([|x pre] & post & H); [|discriminate].
  destruct a; [reflexivity | discriminate].
Qed.

(** A filter by a query, on what a filter by a part of that query kept,
    is the filter by the query. *)
Lemma filter_refines (q q' : string) (records : list string) :
  contains_ci q q' →
  filter (contains_ci q') (filter (contains_ci q) records)
  = filter (contains_ci q') records.
Proof.
  intros Hq. induction records as [|r records IH]; [reflexivity |].
  rewrite !filter_cons.
  destruct (decide (contains_ci q r)) as [Hr | Hr].
  - rewrite filter_cons. now rewrite IH.
  - rewrite IH. destruct (decide (contains_ci q' r)) as [Hr' | Hr']; [|reflexivity].
    destruct Hr. exact (is_substring_trans _ _ _ Hq Hr').
Qed.

End SearchMore.

(** X7. A search needs a log of strings: on a stored array and a query
    that is not empty, the search returns a list when every element is a
    string, and throws a TypeError as soon as one element is not. *)
Theorem search_needs_strings (w : World) (doc : string) (items : list Json)
    (q : string) :
  files w !! "comments.json" = Some doc →
  parse doc = Value (JArray items) →
  q ≠ "" →
  (Forall (λ item, is_string item = true) items →
     ∃ kept, fst (Search.getComments (Some q) w) = Returned (JArray kept)) ∧
  (Exists (λ item, is_string item = false) items →
     fst (Search.getComments (Some q) w) = Threw TypeError).
Proof.
  intros Hdoc Hparse Hq.
  rewrite (SearchMore.search_stored w doc _ _ Hdoc Hparse), SearchMore.select_query by exact Hq.
  cbn [fst]. unfold Search.filter_comments. split; intros H.
  - destruct (SearchMore.Array_filter_returns q items H) as [kept ->]. eauto.
  - now rewrite SearchMore.Array_filter_throws.
Qed.

Lemma search_needs_strings_witness :
  let w := {| files := {[ "comments.json" := stringify (JArray [JString "a"; JNull]) ]};
              writable := true; log := [] |} in
  fst (Search.getComments (Some "a") w) = Threw TypeError.
Proof.
  intros w.
  assert (Hdoc : files w !! "comments.json" = Some (stringify (JArray [JString "a"; JNull])))
    by reflexivity.
  assert (Hparse : parse (stringify (JArray [JString "a"; JNull]))
                   = Value (JArray [JString "a"; JNull])) by reflexivity.
  assert (Hq : "a" ≠ "") by discriminate.
  apply (search_needs_strings w _ _ "a" Hdoc Hparse Hq).
  apply List.Exists_cons_tl, List.Exists_cons_hd. reflexivity.
Defined.

(** X8. Nothing checks that the stored document is a list: with no query
    (or the empty one) every page gets the stored JSON value as it is,
    array or not; with a query that is not empty, a value that is no
    array ends the search with a TypeError. *)
Theorem stored_value_is_not_checked (w : World) (doc : string) (v : Json) :
  files w !! "comments.json" = Some doc →
  parse doc = Value v →
  fst (Comments.getComments w) = Returned v ∧
  fst (Search.getComments None w) = Returned v ∧
  fst (Search.getComments (Some "") w) = Returned v ∧
  ((∀ l, v ≠ JArray l) →
   ∀ q, q ≠ "" → fst (Search.getComments (Some q) w) = Threw TypeError).
Proof.
  intros Hdoc Hparse.
  rewrite (CommentFacts.getComments_run w doc Hdoc).
  rewrite !(SearchMore.search_stored w doc v _ Hdoc Hparse).
  unfold JSON_parse. rewrite Hparse. repeat split.
  intros Harray q Hq.
  rewrite (SearchMore.search_stored w doc v _ Hdoc Hparse), SearchMore.select_query by exact Hq.
  destruct v; try reflexivity. now destruct (Harray l).
Qed.

Lemma stored_value_is_not_checked_witness :
  let w := {| files := {[ "comments.json" := "{}" ]}; writable := true; log := [] |} in
  fst (Comments.getComments w) = Returned (JObject []) ∧
  fst (Search.getComments (Some "a") w) = Threw TypeError.
Proof.
  intros w.
  assert (Hdoc : files w !! "comments.json" = Some "{}") by reflexivity.
  assert (Hparse : parse "{}" = Value (JObject [])) by reflexivity.
  destruct (stored_value_is_not_checked w "{}" (JObject []) Hdoc Hparse)
    as (Hread & _ & _ & Hsearch).
  split; [exact Hread |]. apply Hsearch; intros; discriminate.
Defined.

(** X9. The search does not look at the case of the query: two queries
    that are the same in lower case give the same result, on every
    world. *)
Theorem search_ignores_case (w : World) (q q' : string) :
  toLowerCase q = toLowerCase q' →
  Search.getComments (Some q) w = Search.getComments (Some q') w.
Proof.
  intros Hlower. rewrite !SearchMore.search_after_read.
  destruct (Comments.getComments w) as [[comments | e |] w']; try reflexivity.
  f_equal. unfold Search.select, Search.falsy.
  assert (Hempty : String.eqb q "" = String.eqb q' "").
  { destruct (String.eqb_spec q "") as [-> | Hq], (String.eqb_spec q' "") as [-> | Hq'];
      try reflexivity.
    - symmetry in Hlower.
      apply (proj1 (SearchMore.toLowerCase_empty q')) in Hlower. contradiction.
    - apply (proj1 (SearchMore.toLowerCase_empty q)) in Hlower. contradiction. }
  rewrite Hempty. destruct (String.eqb q' ""); [reflexivity |].
  unfold Search.filter_comments. destruct comments; try reflexivity.
  rewrite (SearchMore.Array_filter_ext (Search.matches q) (Search.matches q')); [reflexivity |].
  intros x. unfold Search.matches. now rewrite Hlower.
Qed.

Lemma search_ignores_case_witness :
  Search.getComments (Some "HEL") hello_world_help
  = Search.getComments (Some "hel") hello_world_help.
Proof. exact (search_ignores_case hello_world_help "HEL" "hel" eq_refl). Defined.

(** X10. The selection is idempotent for every query: applied to what
    it returned, with the same query, it returns the same again. *)
Theorem select_is_idempotent (comments result : Json) (searchQuery : option string) :
  Search.select comments searchQuery = Returned result →
  Search.select result searchQuery = Returned result.
Proof.
  unfold Search.select. destruct (Search.falsy searchQuery); [reflexivity |].
  destruct searchQuery as [q|]; [|reflexivity].
  unfold Search.filter_comments. destruct comments; try discriminate.
  destruct (Search.Array_filter (Search.matches q) l) as [kept | e |] eqn:Hkept;
    try discriminate.
  intros [= <-]. now rewrite (SearchMore.Array_filter_kept _ l kept Hkept).
Qed.

Lemma select_is_idempotent_witness :
  Search.select (JArray [JString "Hello"; JString "Help"]) (Some "hel")
  = Returned (JArray [JString "Hello"; JString "Help"]).
Proof.
  apply (select_is_idempotent
           (JArray [JString "Hello"; JString "world"; JString "Help"])).
  reflexivity.
Defined.

(** X11. A search can be refined on its own result: for a query that
    contains an earlier query (in lower case), the selection on what the
    earlier query returned is the selection on all the records. *)
Theorem search_refines (records : list string) (q q' : string) (result : Json) :
  contains_ci q q' →
  Search.select (JArray (JString <$> records)) (Some q) = Returned result →
  Search.select result (Some q')
  = Search.select (JArray (JString <$> records)) (Some q').
Proof.
  intros Hq. destruct (decide (q = "")) as [-> | Hne].
  { now intros [= <-]. }
  rewrite SearchMore.select_query by exact Hne.
  unfold Search.filter_comments. rewrite SearchFacts.Array_filter_strings.
  intros [= <-].
  destruct (decide (q' = "")) as [-> | Hne'].
  { apply SearchMore.is_substring_empty in Hq.
    apply (proj1 (SearchMore.toLowerCase_empty q)) in Hq. contradiction. }
  rewrite !SearchMore.select_query by exact Hne'.
  unfold Search.filter_comments. rewrite !SearchFacts.Array_filter_strings.
  now rewrite SearchMore.filter_refines.
Qed.

Lemma search_refines_witness :
  Search.select (JArray [JString "Hello"; JString "Help"]) (Some "HELP")
  = Search.select (JArray [JString "Hello"; JString "world"; JString "Help"]) (Some "HELP").
Proof.
  apply (search_refines ["Hello"; "world"; "Help"] "hel" "HELP").
  - exists "", "p". reflexivity.
  - reflexivity.
Defined.

(** ** Submissions and the pages together *)

(** X12. A comment can be found by its own text: after a submission of
    a text that is not empty, on a stored log of strings, the search page
    asked for that text returns the records that contained it before and,
    last, the new comment. *)
Theorem submitted_comment_is_found (w : World) (doc : string) (L : list string)
    (c : string) (formData : FormData) :
  files w !! "comments.json" = Some doc →
  parse doc = Value (JArray (JString <$> L)) →
  get "comment" formData = Some (Text c) →
  writable w = true →
  c ≠ "" →
  fst (SearchPage.SearchPage {[ "query" := c ]} (snd (Comments.submitComment formData w)))
  = Returned (JArray (JString <$> filter (contains_ci c) L ++ [c])).
Proof.
  intros Hdoc Hparse Hget Hwritable Hc.
  rewrite EntryFacts.strings_as_entries in Hparse.
  rewrite (LogFacts.submit_stored w doc _ formData Hdoc Hparse Hwritable).
  cbn [snd]. rewrite Hget.
  replace ((λ s, Some (Text s)) <$> L) with ((Some ∘ Text) <$> L) by reflexivity.
  replace (((Some ∘ Text) <$> L) ++ [Some (Text c)]) with ((Some ∘ Text) <$> L ++ [c])
    by now rewrite fmap_app.
  rewrite <- list_fmap_compose.
  change (json_of ∘ (Some ∘ Text)) with JString.
  set (written := stringify (JArray (JString <$> L ++ [c]))).
  set (w' := {| files := _ |}).
  unfold SearchPage.SearchPage. rewrite lookup_singleton_eq.
  rewrite (SearchMore.search_stored w' written (JArray (JString <$> L ++ [c])));
    [|apply lookup_insert_eq | apply JsonFacts.parse_stringify_strings].
  cbn [fst]. rewrite SearchMore.select_query by exact Hc.
  unfold Search.filter_comments. rewrite SearchFacts.Array_filter_strings.
  rewrite filter_app, filter_cons_True by apply SearchMore.is_substring_refl.
  reflexivity.
Qed.

Lemma submitted_comment_is_found_witness :
  fst (SearchPage.SearchPage {[ "query" := "b" ]}
         (snd (Comments.submitComment [("comment", Text "b")] two_comments)))
  = Returned (JArray [JString "b"; JString "b"]).
Proof.
  assert (Hc : "b" ≠ "") by discriminate.
  exact (submitted_comment_is_found two_comments
           (stringify (JArray [JString "a"; JString "b"])) ["a"; "b"] "b"
           [("comment", Text "b")] eq_refl eq_refl eq_refl eq_refl Hc).
Defined.

(** X13. A submission without a text breaks the search: when the form
    data has no comment field, or a File in it, the submission still
    succeeds and stores null or an empty object at the end of the log;
    the pages then read the log with that element, and every search with
    a query that is not empty throws a TypeError. *)
Theorem submission_without_text_breaks_search (w : World) (doc : string)
    (vs : list FormValue) (formData : FormData) (q : string) :
  files w !! "comments.json" = Some doc →
  parse doc = Value (JArray (json_of <$> vs)) →
  writable w = true →
  (∀ c, get "comment" formData ≠ Some (Text c)) →
  q ≠ "" →
  let run := Comments.submitComment formData w in
  fst run = Returned () ∧
  fst (Comments.getComments (snd run))
  = Returned (JArray (json_of <$> vs ++ [get "comment" formData])) ∧
  fst (Search.getComments (Some q) (snd run)) = Threw TypeError.
Proof.
  intros Hdoc Hparse Hwritable Htext Hq. cbn zeta.
  rewrite (LogFacts.submit_stored w doc vs formData Hdoc Hparse Hwritable).
  cbn [fst snd].
  set (written := stringify (JArray (json_of <$> vs ++ [get "comment" formData]))).
  set (w' := {| files := _ |}).
  assert (Hstored : files w' !! "comments.json" = Some written) by apply lookup_insert_eq.
  pose proof (EntryFacts.parse_stringify_entries (vs ++ [get "comment" formData]))
    as Hwritten.
  split; [reflexivity |]. split.
  - rewrite (CommentFacts.getComments_run w' written Hstored).
    unfold JSON_parse, written. now rewrite Hwritten.
  - rewrite (SearchMore.search_stored w' written _ _ Hstored Hwritten).
    cbn [fst]. rewrite SearchMore.select_query by exact Hq.
    unfold Search.filter_comments.
    rewrite SearchMore.Array_filter_throws; [reflexivity |].
    rewrite fmap_app. apply List.Exists_app. right. apply List.Exists_cons_hd.
    destruct (get "comment" formData) as [[c | name] |]; try reflexivity.
    now destruct (Htext c).
Qed.

Lemma submission_without_text_breaks_search_witness :
  let run := Comments.submitComment [] two_comments in
  fst run = Returned () ∧
  fst (Comments.getComments (snd run))
  = Returned (JArray [JString "a"; JString "b"; JNull]) ∧
  fst (Search.getComments (Some "a") (snd run)) = Threw TypeError.
Proof.
  assert (Hq : "a" ≠ "") by discriminate.
  assert (Htext : ∀ c, get "comment" [] ≠ Some (Text c)) by (intros; discriminate).
  exact (submission_without_text_breaks_search two_comments
           (stringify (JArray [JString "a"; JString "b"]))
           [Some (Text "a"); Some (Text "b")] [] "a"
           eq_refl eq_refl eq_refl Htext Hq).
Defined.

(** X14. The optimistic list agrees with the log: on a stored log of
    strings, the list shown while a submission is pending is the list of
    the page with the submitted value at its end, and once the
    submission has returned, the log read back is that list, value by
    value as JSON.stringify writes them. *)
Theorem optimistic_list_is_confirmed (w : World) (doc : string)
    (L : list string) (formData : FormData) :
  files w !! "comments.json" = Some doc →
  parse doc = Value (JArray (JString <$> L)) →
  writable w = true →
  let comments := (λ s, Some (Text s)) <$> L in
  let '(pending, action) := OptimisticForm.handleFormSubmit formData [] in
  let shown := OptimisticForm.optimisticComments comments pending in
  shown = comments ++ [get "comment" formData] ∧
  fst (action w) = Returned () ∧
  fst (Comments.getComments (snd (action w))) = Returned (JArray (json_of <$> shown)).
Proof.
  intros Hdoc Hparse Hwritable. rewrite EntryFacts.strings_as_entries in Hparse.
  unfold OptimisticForm.handleFormSubmit, OptimisticForm.addOptimisticComment,
    OptimisticForm.optimisticComments, Optimistic.useOptimistic, Optimistic.reducer.
  cbn [app fold_left]. cbn zeta.
  set (comments := (λ s, Some (Text s)) <$> L) in *.
  split; [reflexivity |].
  rewrite (LogFacts.submit_stored w doc comments formData Hdoc Hparse Hwritable).
  cbn [fst snd]. split; [reflexivity |].
  set (written := stringify (JArray (json_of <$> comments ++ [get "comment" formData]))).
  set (w' := {| files := _ |}).
  assert (Hstored : files w' !! "comments.json" = Some written) by apply lookup_insert_eq.
  rewrite (CommentFacts.getComments_run w' written Hstored).
  unfold JSON_parse, written. now rewrite EntryFacts.parse_stringify_entries.
Qed.

Lemma optimistic_list_is_confirmed_witness :
  let '(pending, action) := OptimisticForm.handleFormSubmit [("comment", Text "x")] [] in
  let shown := OptimisticForm.optimisticComments [Some (Text "a"); Some (Text "b")] pending in
  shown = [Some (Text "a"); Some (Text "b"); Some (Text "x")] ∧
  fst (action two_comments) = Returned () ∧
  fst (Comments.getComments (snd (action two_comments)))
  = Returned (JArray (json_of <$> shown)).
Proof.
  exact (optimistic_list_is_confirmed two_comments
           (stringify (JArray [JString "a"; JString "b"])) ["a"; "b"]
           [("comment", Text "x")] eq_refl eq_refl eq_refl).
Defined.

(** ** The feedback action, further *)

Module FeedbackMore.
Import JsString JSON Js Zod Feedback FeedbackForm FeedbackFacts.

Lemma flatten_app (issues issues' : ZodError) (acc : Flattened) :
  flatten (issues ++ issues') acc = flatten issues' (flatten issues acc).
Proof.
  revert acc. induction issues as [|sub issues IH]; intros acc; [reflexivity |].
  cbn [app flatten]. apply IH.
Qed.

(** The issues of one key make one entry, with their messages in order. *)
Lemma flatten_at_key (key : string) (cs : list IssueCode) (acc : Flattened) :
  flatten (at_key key <$> cs) acc =
  match cs with
  | [] => acc
  | _ => {| formErrors := formErrors acc;
            fieldErrors :=
              <[key := default [] (fieldErrors acc !! key) ++ (message <$> cs)]>
                (fieldErrors acc) |}
  end.
Proof.
  revert acc. induction cs as [|c cs IH]; intros acc; [reflexivity |].
  cbn [fmap list_fmap flatten at_key path code]. rewrite IH.
  destruct cs as [|c' cs]; [reflexivity |].
  cbn [formErrors fieldErrors]. rewrite ?lookup_insert_eq, ?insert_insert_eq.
  do 2 f_equal. cbn [from_option]. unfold id. now rewrite <- app_assoc.
Qed.

(** The errors of a submission, key by key. *)
Lemma field_errors (formData : FormData) :
  let errors := fieldErrors (ZodError_flatten
                               (parse_object feedbackSchema (formValues_of formData))) in
  errors !! "name"
    = messages_of (parse_string [min 2; max 100] (Some (get "name" formData))) ∧
  errors !! "email"
    = messages_of (parse_string [email] (Some (get "email" formData))) ∧
  errors !! "feedback"
    = messages_of (parse_string [min 10; max 1000] (Some (get "feedback" formData))) ∧
  ∀ key, key ≠ "name" → key ≠ "email" → key ≠ "feedback" → errors !! key = None.
Proof.
  cbn zeta. unfold ZodError_flatten.
  rewrite parse_object_feedback, !flatten_app, !flatten_at_key.
  destruct (parse_string [min 2; max 100] (Some (get "name" formData))) as [|c1 cs1];
    destruct (parse_string [email] (Some (get "email" formData))) as [|c2 cs2];
    destruct (parse_string [min 10; max 1000] (Some (get "feedback" formData))) as [|c3 cs3];
    cbn [fieldErrors formErrors messages_of];
    (split; [reflexivity |]); (split; [reflexivity |]); (split; [reflexivity |]);
    intros key H1 H2 H3;
    repeat (rewrite lookup_insert_ne by congruence); apply lookup_empty.
Qed.

Lemma parse_string_text (schema : ZodString) (data : string) :
  parse_string schema (Some (Some (Text data))) = concat (map (run_check data) schema).
Proof. reflexivity. Qed.

(** The length checks of a field: the one message of the bound that is
    not kept, or none. *)
Lemma length_messages (lo hi : nat) (data : string) :
  lo ≤ hi →
  messages_of (parse_string [min lo; max hi] (Some (Some (Text data)))) =
  if String.length data <? lo then Some [message (too_small lo)]
  else if hi <? String.length data then Some [message (too_big hi)]
  else None.
Proof.
  intros Hbounds. rewrite parse_string_text. cbn [map concat run_check].
  destruct (Nat.ltb_spec (String.length data) lo),
           (Nat.ltb_spec hi (String.length data)); try reflexivity.
  lia.
Qed.

(** A submission is accepted only when every field is a string that its
    checks accept. *)
Lemma accepted_fields (formData : FormData) :
  parse_object feedbackSchema (formValues_of formData) = [] →
  ∃ name mail feedback,
    get "name" formData = Some (Text name) ∧
    get "email" formData = Some (Text mail) ∧
    get "feedback" formData = Some (Text feedback) ∧
    2 ≤ String.length name ≤ 100 ∧
    emailRegex_test mail = true ∧
    10 ≤ String.length feedback ≤ 1000.
Proof.
  rewrite parse_object_feedback. intros H.
  apply app_eq_nil in H as [Hname H]. apply app_eq_nil in H as [Hmail Hfeedback].
  apply fmap_nil_inv in Hname, Hmail, Hfeedback.
  destruct (get "name" formData) as [[name | ?] |]; try discriminate.
  destruct (get "email" formData) as [[mail | ?] |]; try discriminate.
  destruct (get "feedback" formData) as [[feedback | ?] |]; try discriminate.
  exists name, mail, feedback. repeat split; try reflexivity.
  - revert Hname. rewrite parse_string_text. cbn [map concat run_check].
    destruct (Nat.ltb_spec (String.length name) 2); [discriminate | lia].
  - revert Hname. rewrite parse_string_text. cbn [map concat run_check].
    destruct (Nat.ltb_spec (String.length name) 2); [discriminate |].
    destruct (Nat.ltb_spec 100 (String.length name)); [discriminate | lia].
  - revert Hmail. rewrite parse_string_text. cbn [map concat run_check].
    now destruct (emailRegex_test mail).
  - revert Hfeedback. rewrite parse_string_text. cbn [map concat run_check].
    destruct (Nat.ltb_spec (String.length feedback) 10); [discriminate | lia].
  - revert Hfeedback. rewrite parse_string_text. cbn [map concat run_check].
    destruct (Nat.ltb_spec (String.length feedback) 10); [discriminate |].
    destruct (Nat.ltb_spec 1000 (String.length feedback)); [discriminate | lia].
Qed.

End FeedbackMore.

Import FeedbackForm.

(** X15. The errors of a rejected submission are kept field by field:
    under each of the three keys stand the messages of that field's own
    value against that field's own checks, in the order of the checks,
    with no entry for a field without issue; no other key appears. *)
Theorem errors_are_per_field {Prev} (prev : Prev) (formData : FormData) (w : World)
    (errors : gmap string (list string)) (values : gmap string FormValue) :
  fst (submitFeedback prev formData w) = Returned (ErrorsValues errors values) →
  errors !! "name"
    = messages_of (parse_string [min 2; max 100] (Some (get "name" formData))) ∧
  errors !! "email"
    = messages_of (parse_string [email] (Some (get "email" formData))) ∧
  errors !! "feedback"
    = messages_of (parse_string [min 10; max 1000] (Some (get "feedback" formData))) ∧
  (∀ key, key ≠ "name" → key ≠ "email" → key ≠ "feedback" → errors !! key = None).
Proof.
  rewrite FeedbackFacts.submitFeedback_run.
  pose proof (FeedbackMore.field_errors formData) as Hfields. cbn zeta in Hfields.
  destruct (parse_object feedbackSchema (formValues_of formData)); [discriminate |].
  intros [= <- _]. exact Hfields.
Qed.

Lemma errors_are_per_field_witness :
  ∃ errors values,
    fst (submitFeedback () [("name", Text "A"); ("email", Text "al@example.com")] idle)
    = Returned (ErrorsValues errors values) ∧
    errors !! "name" = Some ["String must contain at least 2 character(s)"] ∧
    errors !! "email" = None ∧
    errors !! "feedback" = Some ["Expected string, received null"].
Proof.
  eexists _, _. split; [reflexivity |].
  destruct (errors_are_per_field ()
              [("name", Text "A"); ("email", Text "al@example.com")] idle _ _ eq_refl)
    as (Hname & Hemail & Hfeedback & _).
  exact (conj Hname (conj Hemail Hfeedback)).
Defined.

(** X16. The bounds of the name and of the feedback are exact, and a
    text breaks at most one of them: in a rejected submission a name (a
    feedback) shorter than 2 (10) has the one message of the lower bound,
    one longer than 100 (1000) the one message of the upper bound, and
    one within the bounds no entry; an email has the one message
    Invalid email exactly when the format test refuses it. *)
Theorem bounds_are_exact {Prev} (prev : Prev) (formData : FormData) (w : World)
    (errors : gmap string (list string)) (values : gmap string FormValue) :
  fst (submitFeedback prev formData w) = Returned (ErrorsValues errors values) →
  (∀ name, get "name" formData = Some (Text name) →
     errors !! "name" =
     if String.length name <? 2
     then Some ["String must contain at least 2 character(s)"]
     else if 100 <? String.length name
          then Some ["String must contain at most 100 character(s)"]
          else None) ∧
  (∀ feedback, get "feedback" formData = Some (Text feedback) →
     errors !! "feedback" =
     if String.length feedback <? 10
     then Some ["String must contain at least 10 character(s)"]
     else if 1000 <? String.length feedback
          then Some ["String must contain at most 1000 character(s)"]
          else None) ∧
  (∀ mail, get "email" formData = Some (Text mail) →
     errors !! "email" = if emailRegex_test mail then None else Some ["Invalid email"]).
Proof.
  rewrite FeedbackFacts.submitFeedback_run.
  pose proof (FeedbackMore.field_errors formData) as Hfields. cbn zeta in Hfields.
  destruct (parse_object feedbackSchema (formValues_of formData)); [discriminate |].
  intros [= <- _]. destruct Hfields as (Hname & Hmail & Hfeedback & _).
  split; [|split].
  - intros name Hget. rewrite Hname, Hget.
    now rewrite (FeedbackMore.length_messages 2 100) by lia.
  - intros feedback Hget. rewrite Hfeedback, Hget.
    now rewrite (FeedbackMore.length_messages 10 1000) by lia.
  - intros mail Hget. rewrite Hmail, Hget, FeedbackMore.parse_string_text.
    cbn [map concat run_check]. now destruct (emailRegex_test mail).
Qed.

Lemma bounds_are_exact_witness :
  ∃ errors values,
    fst (submitFeedback () [("name", Text "A"); ("email", Text "al@example.com");
                            ("feedback", Text "long enough")] idle)
    = Returned (ErrorsValues errors values) ∧
    errors !! "name" = Some ["String must contain at least 2 character(s)"] ∧
    errors !! "feedback" = None ∧
    errors !! "email" = None.
Proof.
  eexists _, _. split; [reflexivity |].
  destruct (bounds_are_exact ()
              [("name", Text "A"); ("email", Text "al@example.com");
               ("feedback", Text "long enough")] idle _ _ eq_refl)
    as (Hname & Hfeedback & Hmail).
  exact (conj (Hname "A" eq_refl)
           (conj (Hfeedback "long enough" eq_refl) (Hmail "al@example.com" eq_refl))).
Defined.

(** X17. A field that is no text rejects the submission on its own:
    when one of the three fields is absent, or holds a File, the action
    returns errors, and under that field stands the one message of the
    type, Expected string, received null for an absent field and
    received object for a File; no length or format message is added. *)
Theorem field_without_text_is_rejected {Prev} (prev : Prev) (formData : FormData)
    (w : World) (key : string) :
  key ∈ ["name"; "email"; "feedback"] →
  (∀ c, get key formData ≠ Some (Text c)) →
  ∃ errors,
    fst (submitFeedback prev formData w)
    = Returned (ErrorsValues errors (formValues_of formData)) ∧
    errors !! key
    = Some ["Expected string, received " +:+ getParsedType (Some (get key formData))] ∧
    (getParsedType (Some (get key formData)) = "null" ∨
     getParsedType (Some (get key formData)) = "object").
Proof.
  intros Hkey Htext. rewrite FeedbackFacts.submitFeedback_run.
  pose proof (FeedbackMore.field_errors formData) as (Hname & Hmail & Hfeedback & _).
  assert (Hissue : ∀ schema, messages_of (parse_string schema (Some (get key formData)))
     = Some ["Expected string, received " +:+ getParsedType (Some (get key formData))]).
  { intros schema. destruct (get key formData) as [[c | name] |];
      [now destruct (Htext c) | reflexivity | reflexivity]. }
  assert (Htype : getParsedType (Some (get key formData)) = "null" ∨
                  getParsedType (Some (get key formData)) = "object").
  { destruct (get key formData) as [[c | name] |];
      [now destruct (Htext c) | now right | now left]. }
  destruct (parse_object feedbackSchema (formValues_of formData)) as [|issue issues] eqn:Hissues.
  - exfalso. destruct (FeedbackMore.accepted_fields formData Hissues)
      as (name & mail & feedback & Hn & He & Hf & _).
    apply elem_of_cons in Hkey as [-> | Hkey]; [now destruct (Htext name) |].
    apply elem_of_cons in Hkey as [-> | Hkey]; [now destruct (Htext mail) |].
    apply list_elem_of_singleton in Hkey as ->. now destruct (Htext feedback).
  - eexists. split; [reflexivity |]. split; [|exact Htype].
    apply elem_of_cons in Hkey as [-> | Hkey]; [now rewrite Hname |].
    apply elem_of_cons in Hkey as [-> | Hkey]; [now rewrite Hmail |].
    apply list_elem_of_singleton in Hkey as ->. now rewrite Hfeedback.
Qed.

Lemma field_without_text_is_rejected_witness :
  ∃ errors,
    fst (submitFeedback () [("name", Text "Al"); ("email", File "card.vcf");
                            ("feedback", Text "long enough")] idle)
    = Returned (ErrorsValues errors
                  (formValues_of [("name", Text "Al"); ("email", File "card.vcf");
                                  ("feedback", Text "long enough")])) ∧
    errors !! "email" = Some ["Expected string, received object"].
Proof.
  assert (Hkey : "email" ∈ ["name"; "email"; "feedback"])
    by (apply elem_of_cons; right; apply elem_of_cons; now left).
  assert (Htext : ∀ c, get "email" [("name", Text "Al"); ("email", File "card.vcf");
                                     ("feedback", Text "long enough")] ≠ Some (Text c))
    by (intros; discriminate).
  destruct (field_without_text_is_rejected ()
              [("name", Text "Al"); ("email", File "card.vcf");
               ("feedback", Text "long enough")] idle "email" Hkey Htext)
    as (errors & Hrun & Herrors & _).
  exists errors. exact (conj Hrun Herrors).
Defined.

(** X18. A submission is never accepted in part: the action returns
    the success variant only when all three fields are texts, the name of
    2 to 100 characters, the email one the format test accepts and the
    feedback of 10 to 1000 characters; the variant then says true. *)
Theorem success_only_if_valid {Prev} (prev : Prev) (formData : FormData) (w : World)
    (success : bool) :
  fst (submitFeedback prev formData w) = Returned (Success success) →
  success = true ∧
  ∃ name mail feedback,
    get "name" formData = Some (Text name) ∧
    get "email" formData = Some (Text mail) ∧
    get "feedback" formData = Some (Text feedback) ∧
    2 ≤ String.length name ≤ 100 ∧
    emailRegex_test mail = true ∧
    10 ≤ String.length feedback ≤ 1000.
Proof.
  rewrite FeedbackFacts.submitFeedback_run.
  destruct (parse_object feedbackSchema (formValues_of formData)) eqn:Hissues;
    [|discriminate].
  intros [= <-]. split; [reflexivity |].
  exact (FeedbackMore.accepted_fields formData Hissues).
Qed.

Lemma success_only_if_valid_witness :
  ∃ name mail feedback,
    get "name" good_feedback = Some (Text name) ∧
    get "email" good_feedback = Some (Text mail) ∧
    get "feedback" good_feedback = Some (Text feedback) ∧
    2 ≤ String.length name ≤ 100 ∧
    emailRegex_test mail = true ∧
    10 ≤ String.length feedback ≤ 1000.
Proof.
  exact (proj2 (success_only_if_valid () good_feedback idle true eq_refl)).
Defined.

(** X19. The feedback action stores nothing: it changes no file and
    never invokes the cache signal.  A rejected submission leaves the
    world as it was; an accepted one adds one effect, the log of the
    three texts to the console. *)
Theorem submitFeedback_stores_nothing {Prev} (prev : Prev) (formData : FormData)
    (w : World) :
  let run := submitFeedback prev formData w in
  files (snd run) = files w ∧
  writable (snd run) = writable w ∧
  signals (log (snd run)) = signals (log w) ∧
  match fst run with
  | Returned (Success _) =>
      ∃ name mail feedback,
        get "name" formData = Some (Text name) ∧
        get "email" formData = Some (Text mail) ∧
        get "feedback" formData = Some (Text feedback) ∧
        log (snd run)
        = log w ++ [ConsoleLog (JObject [("name", JString name); ("email", JString mail);
                                         ("feedback", JString feedback)])]
  | _ => snd run = w
  end.
Proof.
  cbn zeta. rewrite FeedbackFacts.submitFeedback_run.
  destruct (parse_object feedbackSchema (formValues_of formData)) eqn:Hissues;
    [|repeat split].
  cbn [fst snd record files writable log].
  split; [reflexivity |]. split; [reflexivity |].
  split; [rewrite LogFacts.signals_app; cbn; lia |].
  destruct (FeedbackMore.accepted_fields formData Hissues)
    as (name & mail & feedback & Hn & He & Hf & _).
  exists name, mail, feedback. repeat split; try assumption.
  unfold output, feedbackSchema.
  rewrite FeedbackFacts.formValues_name, FeedbackFacts.formValues_email,
    FeedbackFacts.formValues_feedback, Hn, He, Hf.
  reflexivity.
Qed.

(** X20. What the form shows after a submission.  After an accepted
    one: the success message, no error, and every field empty.  After a
    rejected one: no success message, every field that was submitted as
    a text again with that text, every absent field empty, and an error
    under at least one field. *)
Theorem form_after_submission (state : option State) (formData : FormData) (w : World) :
  ∃ next,
    fst (formAction state formData w) = Returned (Some next) ∧
    if successShown (Some next)
    then ∀ key, errorsShown (Some next) key = None ∧
                defaultValue (Some next) key = Text ""
    else (∀ key, key ∈ ["name"; "email"; "feedback"] →
            (∀ c, get key formData = Some (Text c) →
                  defaultValue (Some next) key = Text c) ∧
            (get key formData = None → defaultValue (Some next) key = Text "")) ∧
         (∃ key, key ∈ ["name"; "email"; "feedback"] ∧
                 is_Some (errorsShown (Some next) key)).
Proof.
  unfold formAction. rewrite CommentFacts.bind_run, FeedbackFacts.submitFeedback_run.
  pose proof (FeedbackMore.field_errors formData) as (Hname & Hmail & Hfeedback & _).
  pose proof (FeedbackFacts.parse_object_feedback formData) as Hshape.
  destruct (parse_object feedbackSchema (formValues_of formData)) as [|issue issues].
  { eexists. split; [reflexivity |]. cbn. now split. }
  eexists. split; [reflexivity |]. cbn [successShown]. split.
  - intros key Hkey. cbn [defaultValue].
    apply elem_of_cons in Hkey as [-> | Hkey];
      [rewrite FeedbackFacts.formValues_name;
       split; [intros c Hget | intros Hget]; now rewrite Hget |].
    apply elem_of_cons in Hkey as [-> | Hkey];
      [rewrite FeedbackFacts.formValues_email;
       split; [intros c Hget | intros Hget]; now rewrite Hget |].
    apply list_elem_of_singleton in Hkey as ->.
    rewrite FeedbackFacts.formValues_feedback.
    split; [intros c Hget | intros Hget]; now rewrite Hget.
  - cbn [errorsShown].
    destruct (parse_string [min 2; max 100] (Some (get "name" formData))) as [|c1 cs1].
    2: { exists "name". split; [set_solver |]. rewrite Hname. now eexists. }
    destruct (parse_string [email] (Some (get "email" formData))) as [|c2 cs2].
    2: { exists "email". split; [set_solver |]. rewrite Hmail. now eexists. }
    destruct (parse_string [min 10; max 1000] (Some (get "feedback" formData))) as [|c3 cs3].
    2: { exists "feedback". split; [set_solver |]. rewrite Hfeedback. now eexists. }
    discriminate Hshape.
Qed.

(** ** A stored string *)

Module SpreadFacts.
Import JsString JSON Js CommentsForm.

Lemma units_characters (s : string) : units s = JString <$> characters s.
Proof. induction s as [|c s IH]; [reflexivity |]. cbn. now rewrite IH. Qed.

End SpreadFacts.

(** X21. A stored document that is one JSON string is taken for the
    list of its characters: a submission on it succeeds and replaces the
    string by the array of its characters, each a string of its own, with
    the submitted text after them. *)
Theorem stored_string_becomes_characters (w : World) (doc : string) (s c : string)
    (formData : FormData) :
  files w !! "comments.json" = Some doc →
  parse doc = Value (JString s) →
  get "comment" formData = Some (Text c) →
  writable w = true →
  let run := Comments.submitComment formData w in
  fst run = Returned () ∧
  fst (Comments.getComments (snd run))
  = Returned (JArray (JString <$> characters s ++ [c])).
Proof.
  intros Hdoc Hparse Hget Hwritable. cbn zeta.
  unfold Comments.submitComment.
  rewrite CommentFacts.bind_run. unfold readFile. rewrite Hdoc.
  rewrite CommentFacts.bind_run. unfold JSON_parse at 1 2. rewrite Hparse.
  rewrite CommentFacts.bind_run. cbn [spread]. unfold mret at 1 2, action_ret.
  rewrite CommentFacts.persist_runs, Hget. cbn [record writable json_of].
  rewrite Hwritable. cbn [fst snd]. split; [reflexivity |].
  rewrite SpreadFacts.units_characters.
  replace ((JString <$> characters s) ++ [JString c])
    with (JString <$> characters s ++ [c]) by now rewrite fmap_app.
  set (written := stringify (JArray (JString <$> characters s ++ [c]))).
  set (w' := {| files := _ |}).
  assert (Hstored : files w' !! "comments.json" = Some written) by apply lookup_insert_eq.
  rewrite (CommentFacts.getComments_run w' written Hstored).
  unfold JSON_parse, written. now rewrite JsonFacts.parse_stringify_strings.
Qed.

Lemma stored_string_becomes_characters_witness :
  let w := {| files := {[ "comments.json" := quote "ab" ]}; writable := true; log := [] |} in
  let run := Comments.submitComment [("comment", Text "x")] w in
  fst run = Returned () ∧
  fst (Comments.getComments (snd run))
  = Returned (JArray [JString "a"; JString "b"; JString "x"]).
Proof.
  intros w.
  assert (Hdoc : files w !! "comments.json" = Some (quote "ab")) by reflexivity.
  assert (Hparse : parse (quote "ab") = Value (JString "ab")) by reflexivity.
  exact (stored_string_becomes_characters w (quote "ab") "ab" "x"
           [("comment", Text "x")] Hdoc Hparse eq_refl eq_refl).
Defined.
